(** * RAG evaluation notebook: Titan / Cohere knowledge bases scored with Ragas

    A shallow embedding of the orchestration code of
    [lab-01-titan-cohere-embeddings-ragas.ipynb]: the construction of the
    evaluation datasets ([execute_rag] and the loop that fills [datasets]),
    the scoring loop ([evaluate_kb] and the loop that fills [dfs]) and the
    cell that averages the metric columns into [means_df].

    External collaborators are not implemented by the notebook and are
    taken as parameters of the development:
    - the retriever and the text-generation model behind LangChain's
      [RetrievalQA] chain (they talk to remote services, so they read and
      change an abstract [World]);
    - the per-cell outcome of Ragas' [evaluate], and whether a call of
      [evaluate] lets an exception through; its check of the column types,
      which raises before any scoring, is modelled by [null_typed];
    - pandas' column mean, modelled after [nanops.nanmean] (missing values
      are replaced by zero in the sum and left out of the count).

    Scores are floating-point numbers in the notebook; here they are exact
    rationals ([Qc]) and the missing value NaN is [None]. The statements
    below say which cells enter a mean and where a mean is NaN; none of them
    bounds the value of a mean, which rounding could move. *)

From Stdlib Require Import QArith Qcanon.
From stdpp Require Import base option list strings gmap.

Open Scope string_scope.
Open Scope list_scope.

(** ** Exceptions and the notebook monad *)

(** The exceptions that can escape the modelled code.  The notebook defines
    no exception class of its own and catches nothing: whatever a port or a
    library raises reaches the top level.  The constructors name the origin
    of the exception. *)
Inductive exn : Type :=
| RetrievalError      (* raised by the retriever of the QA chain *)
| GenerationError     (* raised by the text-generation model of the QA chain *)
| ArrowInvalid        (* Dataset.from_dict: columns of different lengths *)
| KeyError (k : string)   (* dict or DataFrame lookup of a missing key *)
| IndexError          (* list index out of range *)
| TypeError           (* mean of a column that is not numeric *)
| ValueError          (* Ragas: a column of the dataset has the wrong type *)
| RagasError.         (* any other exception that evaluate lets through *)

Global Instance exn_eq_dec : EqDecision exn.
Proof. solve_decision. Defined.

Section Monad.
Context {World : Type}.

(** A computation reads and updates the world and either raises or
    returns. *)
Definition M (A : Type) : Type := World -> (exn + A) * World.

Definition ret {A} (a : A) : M A := fun w => (inr a, w).
Definition raise {A} (e : exn) : M A := fun w => (inl e, w).
Definition bind {A B} (c : M A) (k : A -> M B) : M B :=
  fun w => match c w with
           | (inr a, w') => k a w'
           | (inl e, w') => (inl e, w')
           end.

(** Lifting of a pure lookup that may be missing. *)
Definition lookup_or_raise {A} (o : option A) (e : exn) : M A :=
  match o with Some a => ret a | None => raise e end.

End Monad.

Arguments M : clear implicits.

Notation "x <- c ;; k" := (bind c (fun x => k))
  (at level 100, c at next level, right associativity).

(** ** Python dictionaries that are iterated

    [dfs] is filled by [dfs[kb_id] = df] and later traversed with
    [dfs.items()], so the insertion order is observable: assigning to a key
    that is present replaces the value in place, a new key goes last. *)
Module PyDict.
Definition t (V : Type) : Type := list (string * V).

Fixpoint set {V} (k : string) (v : V) (d : t V) : t V :=
  match d with
  | [] => [(k, v)]
  | (k', v') :: d' =>
      if decide (k' = k) then (k, v) :: d' else (k', v') :: set k v d'
  end.

Fixpoint get {V} (k : string) (d : t V) : option V :=
  match d with
  | [] => None
  | (k', v') :: d' => if decide (k' = k) then Some v' else get k d'
  end.

Definition items {V} (d : t V) : list (string * V) := d.
Definition keys {V} (d : t V) : list string := map fst d.
End PyDict.

(** ** Data of the notebook *)

(** A knowledge base as returned by [create_knowledge_base]; the notebook
    reads the fields ['name'] and ['knowledgeBaseId']. *)
Record KnowledgeBase : Type := {
  kb_name : string;
  knowledgeBaseId : string
}.

(** [AmazonKnowledgeBasesRetriever(knowledge_base_id=..., retrieval_config=
    {"vectorSearchConfiguration": {"numberOfResults": ...}})]. *)
Record Retriever : Type := {
  knowledge_base_id : string;
  numberOfResults : nat
}.

Record Document : Type := { page_content : string }.

(** The dict returned by [qa_chain.invoke] with
    [return_source_documents=True]. *)
Record Response : Type := {
  result : string;
  source_documents : list Document
}.

(** [[docs.page_content for docs in response["source_documents"]]] *)
Definition contexts_of (response : Response) : list string :=
  map page_content (source_documents response).

(** [BedrockEmbeddings(model_id=...)]. *)
Record Embeddings : Type := { model_id : string }.

(** The Ragas metrics imported by the notebook. *)
Inductive Metric : Type :=
| answer_relevancy
| context_recall
| context_precision
| context_entity_recall
| answer_similarity
| answer_correctness.

Global Instance Metric_eq_dec : EqDecision Metric.
Proof. solve_decision. Defined.

Definition metric_name (m : Metric) : string :=
  match m with
  | answer_relevancy => "answer_relevancy"
  | context_recall => "context_recall"
  | context_precision => "context_precision"
  | context_entity_recall => "context_entity_recall"
  | answer_similarity => "answer_similarity"
  | answer_correctness => "answer_correctness"
  end.

(** The dict [data] built by [execute_rag]: four parallel lists. *)
Record Data : Type := {
  col_question : list string;
  col_answer : list string;
  col_contexts : list (list string);
  col_ground_truth : list string
}.

(** One row of a dataset, as a scorer sees it. *)
Record Row : Type := {
  row_question : string;
  row_answer : string;
  row_contexts : list string;
  row_ground_truth : string
}.

(** ** The part of pandas the notebook uses *)
Module Pandas.
(** A column holds text, lists of text, or floats where NaN is [None]. *)
Inductive Column : Type :=
| StrCol (l : list string)
| ListCol (l : list (list string))
| NumCol (l : list (option Qc)).

(** A frame is its columns, in order. *)
Definition DataFrame : Type := list (string * Column).

(** A series of floats with its labels. *)
Definition Series : Type := list (string * option Qc).

Definition column (name : string) (df : DataFrame) : option Column :=
  PyDict.get name df.

(** [nanops.nanmean]: NaN counts as zero in the sum and is left out of the
    count; without any valid entry the mean is NaN. *)
Definition fillna0 (v : option Qc) : Qc := default 0%Qc v.

Definition nansum (col : list (option Qc)) : Qc :=
  foldr (fun v acc => (fillna0 v + acc)%Qc) 0%Qc col.

Definition notna (v : option Qc) : bool :=
  match v with Some _ => true | None => false end.

Definition count_valid (col : list (option Qc)) : nat :=
  foldr (fun v n => if notna v then S n else n) 0 col.

Definition Qc_of_nat (n : nat) : Qc := Q2Qc (inject_Z (Z.of_nat n)).

Definition nanmean (col : list (option Qc)) : option Qc :=
  match count_valid col with
  | O => None
  | S _ as n => Some (nansum col / Qc_of_nat n)%Qc
  end.

(** [df[cols]]: the first missing label raises [KeyError]. *)
Fixpoint select (cols : list string) (df : DataFrame)
  : exn + list (string * Column) :=
  match cols with
  | [] => inr []
  | c :: cols' =>
      match column c df with
      | None => inl (KeyError c)
      | Some col =>
          match select cols' df with
          | inl e => inl e
          | inr rest => inr ((c, col) :: rest)
          end
      end
  end.

(** [frame.mean()] over the selected columns. *)
Fixpoint mean (sel : list (string * Column)) : exn + Series :=
  match sel with
  | [] => inr []
  | (c, NumCol l) :: sel' =>
      match mean sel' with
      | inl e => inl e
      | inr rest => inr ((c, nanmean l) :: rest)
      end
  | (_, _) :: _ => inl TypeError
  end.

(** The frame built by [pd.DataFrame(rows, columns=..., index=...)] from a
    list of series, and re-labelled by [index.map(dict)]: a label the dict
    does not know becomes NaN ([None]). *)
Record MeansFrame : Type := {
  index : list (option string);
  columns : list string;
  values : list (list (option Qc))
}.

(** A row is the series re-indexed on the frame's columns; a label the
    series lacks gives NaN. *)
Definition reindex (cols : list string) (s : Series) : list (option Qc) :=
  map (fun c => default None (PyDict.get c s)) cols.
End Pandas.

Import Pandas.

(** ** The notebook *)

(** [prefix], prepended to every question before anything else is done. *)
Definition prefix : string :=
  "Keep your answers under 2000 characters in length. Only use information you are sure about from the knowledge base. ".

(** [numeric_cols] of the plotting cell. *)
Definition numeric_cols : list string :=
  ["answer_relevancy"; "context_precision"; "context_recall";
   "context_entity_recall"; "answer_similarity"; "answer_correctness"].

(** [display_names] of the plotting cell. *)
Definition display_names : gmap string string :=
  <["amazon-titan-embedding-v2-knowledge-base" := "Amazon Titan Embedding"]>
  (<["cohere-embed-english-v3-knowledge-base" := "Cohere English Embedding"]> ∅).

(** The rows of a dataset: the i-th entries of the four columns. *)
Fixpoint zip_rows (qs ans : list string) (cs : list (list string))
  (gs : list string) : list Row :=
  match qs, ans, cs, gs with
  | q :: qs', a :: ans', c :: cs', g :: gs' =>
      {| row_question := q; row_answer := a; row_contexts := c;
         row_ground_truth := g |} :: zip_rows qs' ans' cs' gs'
  | _, _, _, _ => []
  end.

Definition dataset_rows (d : Data) : list Row :=
  zip_rows (col_question d) (col_answer d) (col_contexts d)
    (col_ground_truth d).

(** [Dataset.from_dict]: the columns must have one length. *)
Definition same_lengths (d : Data) : bool :=
  (length (col_answer d) =? length (col_question d))%nat
  && (length (col_contexts d) =? length (col_question d))%nat
  && (length (col_ground_truth d) =? length (col_question d))%nat.

(** [Dataset.from_dict] infers the types of the columns from the data, and
    [evaluate] begins by checking them. A dataset without rows has columns
    of the null type, and one whose contexts lists are all empty has a
    contexts column of lists of null: in both cases the check fails. *)
Definition null_typed (dataset : Data) : bool :=
  (length (col_question dataset) =? 0)%nat
  || forallb (fun c : list string => bool_decide (c = []))
       (col_contexts dataset).

Section Notebook.
Context {World : Type}.

(** *** External ports *)

(** The retriever's [get_relevant_documents]: [None] when it raises. *)
Variable retrieve : Retriever -> string -> World -> option (list Document) * World.

(** [llm_for_text_generation] behind the chain that stuffs the retrieved
    documents and the question into one prompt: [None] when it raises. *)
Variable generate : list Document -> string -> World -> option string * World.

(** Ragas: the score of one metric on one row with the given embeddings,
    during a call of [evaluate] entered in the given world. [None] is the
    NaN that Ragas stores for a cell it could not score (the "failed to
    parse output" messages that the notebook tells its reader to
    disregard). *)
Variable ragas_score : Embeddings -> Metric -> Row -> World -> option Qc.

(** The world after a call of [evaluate]. *)
Variable ragas_effect : Data -> list Metric -> Embeddings -> World -> World.

(** Whether a call of [evaluate] that passed the check of the column types
    raises all the same: an exception of a scorer that Ragas does not turn
    into NaN. *)
Variable ragas_raises : Data -> list Metric -> Embeddings -> World -> bool.

(** *** Inputs fixed by the first cells *)

(** The questions as first written, before [prefix] is prepended. *)
Variable raw_questions : list string.
Variable ground_truth : list string.
Variable kbs : list KnowledgeBase.
Variable bedrock_embeddings : list Embeddings.
Variable metrics : list Metric.

(** [questions = [prefix + question for question in questions]] *)
Definition questions : list string :=
  map (fun question => prefix +:+ question) raw_questions.

(** [retrievers = [AmazonKnowledgeBasesRetriever(...) for kb in kbs]] *)
Definition retrievers : list Retriever :=
  map (fun kb => {| knowledge_base_id := knowledgeBaseId kb;
                    numberOfResults := 5 |}) kbs.

(** *** The QA chain *)

Definition port {A} (p : World -> option A * World) (e : exn) : M World A :=
  fun w => match p w with
           | (Some a, w') => (inr a, w')
           | (None, w') => (inl e, w')
           end.

(** [RetrievalQA.invoke] with [return_source_documents=True]: retrieve,
    generate from whatever was retrieved, return both. *)
Definition qa_chain_invoke (retriever : Retriever) (query : string)
  : M World Response :=
  docs <- port (retrieve retriever query) RetrievalError ;;
  text <- port (generate docs query) GenerationError ;;
  ret {| result := text; source_documents := docs |}.

(** *** Preparing the evaluation data *)

(** The [for query in questions] loop of [execute_rag], with the two lists
    it appends to. *)
Fixpoint answer_loop (retriever : Retriever) (queries : list string)
  (answers : list string) (contexts : list (list string))
  : M World (list string * list (list string)) :=
  match queries with
  | [] => ret (answers, contexts)
  | query :: queries' =>
      response <- qa_chain_invoke retriever query ;;
      answer_loop retriever queries'
        (answers ++ [result response])
        (contexts ++ [contexts_of response])
  end.

Definition execute_rag (retriever : Retriever) : M World (string * Data) :=
  let kb_id := knowledge_base_id retriever in
  ac <- answer_loop retriever questions [] [] ;;
  let data := {| col_question := questions;
                 col_answer := ac.1;
                 col_contexts := ac.2;
                 col_ground_truth := ground_truth |} in
  ret (kb_id, data).

Definition Dataset_from_dict (data : Data) : M World Data :=
  if same_lengths data then ret data else raise ArrowInvalid.

(** [for retriever in retrievers: ... datasets[kb_id] = Dataset.from_dict(data)] *)
Fixpoint datasets_loop (rs : list Retriever) (datasets : gmap string Data)
  : M World (gmap string Data) :=
  match rs with
  | [] => ret datasets
  | retriever :: rs' =>
      kd <- execute_rag retriever ;;
      ds <- Dataset_from_dict kd.2 ;;
      datasets_loop rs' (<[kd.1 := ds]> datasets)
  end.

(** *** Evaluating *)

(** [evaluate(dataset, metrics, llm, embeddings, run_config).to_pandas()]:
    the columns of the dataset followed by one column of scores per metric,
    one score per row. *)
Definition ragas_frame (dataset : Data) (ms : list Metric)
  (embeddings : Embeddings) (w : World) : DataFrame :=
  [("question", StrCol (col_question dataset));
   ("answer", StrCol (col_answer dataset));
   ("contexts", ListCol (col_contexts dataset));
   ("ground_truth", StrCol (col_ground_truth dataset))]
  ++ map (fun m =>
            (metric_name m,
             NumCol (map (fun row => ragas_score embeddings m row w)
                       (dataset_rows dataset)))) ms.

(** A call of [evaluate] returns when the column types pass the check and
    no scorer's exception gets through. *)
Definition evaluate_returns (dataset : Data) (ms : list Metric)
  (embeddings : Embeddings) (w : World) : bool :=
  negb (null_typed dataset) && negb (ragas_raises dataset ms embeddings w).

(** The check of the column types comes before any scoring; the notebook
    calls [evaluate] without a guard, so what it raises leaves
    [evaluate_kb]. *)
Definition ragas_evaluate (dataset : Data) (ms : list Metric)
  (embeddings : Embeddings) : M World DataFrame :=
  fun w =>
    if null_typed dataset then (inl ValueError, w)
    else if ragas_raises dataset ms embeddings w
         then (inl RagasError, ragas_effect dataset ms embeddings w)
         else (inr (ragas_frame dataset ms embeddings w),
               ragas_effect dataset ms embeddings w).

Definition evaluate_kb (kb : KnowledgeBase) (embeddings : Embeddings)
  (datasets : gmap string Data) : M World (string * DataFrame) :=
  let kb_id := knowledgeBaseId kb in
  dataset <- lookup_or_raise (datasets !! kb_id) (KeyError kb_id) ;;
  df <- ragas_evaluate dataset metrics embeddings ;;
  ret (kb_id, df).

(** [for i, kb in enumerate(kbs): ... dfs[kb_id] = df] *)
Fixpoint dfs_loop (datasets : gmap string Data) (i : nat)
  (ks : list KnowledgeBase) (dfs : PyDict.t DataFrame)
  : M World (PyDict.t DataFrame) :=
  match ks with
  | [] => ret dfs
  | kb :: ks' =>
      embeddings <- lookup_or_raise (bedrock_embeddings !! i) IndexError ;;
      kd <- evaluate_kb kb embeddings datasets ;;
      dfs_loop datasets (S i) ks' (PyDict.set kd.1 kd.2 dfs)
  end.

(** The two cells in sequence: from the inputs to [dfs]. *)
Definition run_evaluation : M World (PyDict.t DataFrame) :=
  datasets <- datasets_loop retrievers ∅ ;;
  dfs_loop datasets 0 kbs [].

(** *** Vocabulary for the statements *)

(** The world in which the next question is asked, once the given questions
    have been put to the chain. *)
Fixpoint world_after (retriever : Retriever) (queries : list string)
  (w : World) : World :=
  match queries with
  | [] => w
  | query :: queries' =>
      world_after retriever queries' (qa_chain_invoke retriever query w).2
  end.

(** Every one of the given questions is answered: no call of the chain
    raises. *)
Fixpoint all_answered (retriever : Retriever) (queries : list string)
  (w : World) : bool :=
  match queries with
  | [] => true
  | query :: queries' =>
      match qa_chain_invoke retriever query w with
      | (inr _, w') => all_answered retriever queries' w'
      | (inl _, _) => false
      end
  end.

(** The responses of the chain to the given questions, up to the first call
    that raises. *)
Fixpoint responses (retriever : Retriever) (queries : list string)
  (w : World) : list Response :=
  match queries with
  | [] => []
  | query :: queries' =>
      match qa_chain_invoke retriever query w with
      | (inr response, w') => response :: responses retriever queries' w'
      | (inl _, _) => []
      end
  end.

(** Every record of every retriever is built. *)
Fixpoint all_built (rs : list Retriever) (w : World) : bool :=
  match rs with
  | [] => true
  | retriever :: rs' =>
      all_answered retriever questions w
      && all_built rs' (world_after retriever questions w)
  end.

(** The world after the datasets of the given retrievers are built. *)
Fixpoint world_built (rs : list Retriever) (w : World) : World :=
  match rs with
  | [] => w
  | retriever :: rs' => world_built rs' (world_after retriever questions w)
  end.

(** The dataset that [execute_rag] returns for a retriever whose questions
    are all answered. *)
Definition built_data (retriever : Retriever) (w : World) : Data :=
  {| col_question := questions;
     col_answer := map result (responses retriever questions w);
     col_contexts := map contexts_of (responses retriever questions w);
     col_ground_truth := ground_truth |}.

(** The datasets stored when every record of the given retrievers is
    built. *)
Fixpoint built_datasets (rs : list Retriever) (datasets : gmap string Data)
  (w : World) : gmap string Data :=
  match rs with
  | [] => datasets
  | retriever :: rs' =>
      built_datasets rs'
        (<[knowledge_base_id retriever := built_data retriever w]> datasets)
        (world_after retriever questions w)
  end.

(** The world after the scoring loop has gone through the given knowledge
    bases, from position [i] on. *)
Fixpoint world_scored (datasets : gmap string Data) (i : nat)
  (ks : list KnowledgeBase) (w : World) : World :=
  match ks with
  | [] => w
  | kb :: ks' =>
      match bedrock_embeddings !! i, datasets !! knowledgeBaseId kb with
      | Some embeddings, Some dataset =>
          world_scored datasets (S i) ks'
            (ragas_effect dataset metrics embeddings w)
      | _, _ => w
      end
  end.

(** Every call of [evaluate] that the scoring loop makes returns. (Where a
    lookup raises no call is made.) *)
Fixpoint all_scored (datasets : gmap string Data) (i : nat)
  (ks : list KnowledgeBase) (w : World) : bool :=
  match ks with
  | [] => true
  | kb :: ks' =>
      match bedrock_embeddings !! i, datasets !! knowledgeBaseId kb with
      | Some embeddings, Some dataset =>
          evaluate_returns dataset metrics embeddings w
          && all_scored datasets (S i) ks'
               (ragas_effect dataset metrics embeddings w)
      | _, _ => true
      end
  end.

(** Every call of [evaluate] of a run whose records are all built
    returns. *)
Definition run_scored (w : World) : bool :=
  all_scored (built_datasets retrievers ∅ w) 0 kbs (world_built retrievers w).

(** The calls of [evaluate] made by the scoring loop from position [i] on:
    knowledge base, embeddings, dataset, and the world in which the call is
    entered; up to the first lookup that raises or call that does not
    return. *)
Fixpoint evaluation_calls (datasets : gmap string Data) (i : nat)
  (ks : list KnowledgeBase) (w : World)
  : list (KnowledgeBase * Embeddings * Data * World) :=
  match ks with
  | [] => []
  | kb :: ks' =>
      match bedrock_embeddings !! i, datasets !! knowledgeBaseId kb with
      | Some embeddings, Some dataset =>
          if evaluate_returns dataset metrics embeddings w
          then (kb, embeddings, dataset, w)
               :: evaluation_calls datasets (S i) ks'
                    (ragas_effect dataset metrics embeddings w)
          else []
      | _, _ => []
      end
  end.

(** The frame that each call returns, under the id of its knowledge base. *)
Definition evaluations (datasets : gmap string Data) (i : nat)
  (ks : list KnowledgeBase) (w : World) : list (string * DataFrame) :=
  map (fun c : KnowledgeBase * Embeddings * Data * World =>
         let '(kb, embeddings, dataset, w0) := c in
         (knowledgeBaseId kb, ragas_frame dataset metrics embeddings w0))
      (evaluation_calls datasets i ks w).

(** The (backend, row, metric) triples of a run, in the order of the flat
    table. *)
Definition triples : list (string * nat * string) :=
  kb ← kbs;
  m ← metrics;
  (fun i => (knowledgeBaseId kb, i, metric_name m))
    <$> seq 0 (length raw_questions).

End Notebook.

(** *** Averaging and the comparison view *)

(** [next((kb['name'] for kb in kbs if kb['knowledgeBaseId'] == key), 'Unknown')] *)
Fixpoint kb_name_of (kbs : list KnowledgeBase) (key : string) : string :=
  match kbs with
  | [] => "Unknown"
  | kb :: kbs' =>
      if decide (knowledgeBaseId kb = key) then kb_name kb
      else kb_name_of kbs' key
  end.

(** [for key, df in dfs.items(): ...] with the two lists it appends to. *)
Fixpoint means_loop (kbs : list KnowledgeBase)
  (items : list (string * DataFrame))
  (means : list Series) (kb_names : list string)
  : exn + (list Series * list string) :=
  match items with
  | [] => inr (means, kb_names)
  | (key, df) :: items' =>
      match select numeric_cols df with
      | inl e => inl e
      | inr sel =>
          match mean sel with
          | inl e => inl e
          | inr mean_values =>
              means_loop kbs items' (means ++ [mean_values])
                (kb_names ++ [kb_name_of kbs key])
          end
      end
  end.

(** [pd.DataFrame(means, columns=numeric_cols, index=kb_names)] *)
Definition DataFrame_of_series (means : list Series) (cols : list string)
  (idx : list string) : MeansFrame :=
  {| index := map Some idx;
     columns := cols;
     values := map (reindex cols) means |}.

(** [frame.index = frame.index.map(d)] *)
Definition index_map (d : gmap string string) (mf : MeansFrame) : MeansFrame :=
  {| index := map (fun lbl => lbl ≫= (fun l => d !! l)) (index mf);
     columns := columns mf;
     values := values mf |}.

(** The global names the averaging cell reads and assigns. *)
Record Globals : Type := {
  dfs : PyDict.t DataFrame;
  means : list Series;
  kb_names : list string;
  means_df : option MeansFrame
}.

(** The averaging cell, as a transformer of the globals. *)
Definition means_cell (kbs : list KnowledgeBase) (g : Globals) : exn + Globals :=
  match means_loop kbs (PyDict.items (dfs g)) [] [] with
  | inl e => inl e
  | inr (means', kb_names') =>
      let means_df' := DataFrame_of_series means' numeric_cols kb_names' in
      inr {| dfs := dfs g;
             means := means';
             kb_names := kb_names';
             means_df := Some (index_map display_names means_df') |}
  end.

(** What the cell computes from [dfs] alone. *)
Definition summarize (kbs : list KnowledgeBase) (table : PyDict.t DataFrame)
  : exn + MeansFrame :=
  match means_loop kbs (PyDict.items table) [] [] with
  | inl e => inl e
  | inr (means', kb_names') =>
      inr (index_map display_names
             (DataFrame_of_series means' numeric_cols kb_names'))
  end.

(** The entry of a summary for the backend at position [b] and the metric at
    position [j]. *)
Definition summary_entry (mf : MeansFrame) (b j : nat) : option (option Qc) :=
  values mf !! b ≫= (fun row => row !! j).

(** A table can be averaged when every frame holds every numeric column as
    a column of floats. *)
Definition has_numeric (df : DataFrame) (c : string) : bool :=
  match column c df with
  | Some (NumCol _) => true
  | _ => false
  end.

Definition scored_table (table : PyDict.t DataFrame) : bool :=
  forallb (fun kd : string * DataFrame =>
             forallb (has_numeric kd.2) numeric_cols) table.

(** Every numeric column is the name of one of the metrics. *)
Definition covers_numeric_cols (ms : list Metric) : bool :=
  forallb (fun c => bool_decide (c ∈ map metric_name ms)) numeric_cols.

(** [subset1 = means_df.iloc[:, :6]; plot_df1 = subset1.T]: for every metric
    the backends, each with its label and its mean, in the order in which the
    bars are drawn. *)
Definition iloc_columns (n : nat) (mf : MeansFrame) : MeansFrame :=
  {| index := index mf;
     columns := take n (columns mf);
     values := map (take n) (values mf) |}.

Definition transpose (mf : MeansFrame)
  : list (string * list (option string * option Qc)) :=
  imap (fun j c =>
          (c, zip_with (fun lbl row => (lbl, default None (row !! j)))
                (index mf) (values mf)))
       (columns mf).

Definition plot_df1 (mf : MeansFrame)
  : list (string * list (option string * option Qc)) :=
  transpose (iloc_columns 6 mf).

(** *** Reading a table of results cell by cell *)

(** The scores held by a frame: column by column, row by row. *)
Definition frame_cells (df : DataFrame) : list (string * nat * option Qc) :=
  c ← df;
  match c.2 with
  | NumCol l => imap (fun i v => (c.1, i, v)) l
  | _ => []
  end.

(** The flat table (backend, row, metric, value or NaN). *)
Definition score_cells (table : PyDict.t DataFrame)
  : list (string * nat * string * option Qc) :=
  kd ← PyDict.items table;
  map (fun c => (kd.1, c.1.2, c.1.1, c.2)) (frame_cells kd.2).

(** The key of a cell: backend, row, metric. *)
Definition cell_key (c : string * nat * string * option Qc)
  : string * nat * string := c.1.

(** The successful values of a column, and the number of failed ones. *)
Definition successful (col : list (option Qc)) : list Qc := omap id col.

Definition error_count (col : list (option Qc)) : nat :=
  length (filter (fun v => v = None) col).

(** The bars of one metric are ranked when no bar is higher than the one
    before it. *)
Definition ranked_by_mean (bars : list (option string * option Qc)) : Prop :=
  forall i l1 l2 x y,
    bars !! i = Some (l1, Some x) ->
    bars !! S i = Some (l2, Some y) ->
    (y <= x)%Qc.

(** The arithmetic mean as the words say it: the sum divided by the number of
    summands. *)
Definition arithmetic_mean (vs : list Qc) : Qc :=
  (foldr Qcplus 0%Qc vs / Qc_of_nat (length vs))%Qc.

Global Instance Column_eq_dec : EqDecision Column.
Proof. solve_decision. Defined.

Global Instance MeansFrame_eq_dec : EqDecision MeansFrame.
Proof. solve_decision. Defined.

(** ** The notebook's own inputs, and sample ports to run it on *)
Module Sample.

Definition raw_questions : list string :=
  ["What was the primary reason for the increase in net cash provided by operating activities for Octank Financial in 2021?";
   "In which year did Octank Financial have the highest net cash used in investing activities, and what was the primary reason for this?";
   "What was the primary source of cash inflows from financing activities for Octank Financial in 2021?"].

Definition ground_truth : list string :=
  ["The increase in net cash provided by operating activities was primarily due to an increase in net income and favorable changes in operating assets and liabilities.";
   "Octank Financial had the highest net cash used in investing activities in 2021, at $360 million, compared to $290 million in 2020 and $240 million in 2019. The primary reason for this was an increase in purchases of property, plant, and equipment and marketable securities.";
   "The primary source of cash inflows from financing activities for Octank Financial in 2021 was an increase in proceeds from the issuance of common stock and long-term debt."].

Definition amazon_titan_knowledge_base : KnowledgeBase :=
  {| kb_name := "amazon-titan-embedding-v2-knowledge-base";
     knowledgeBaseId := "KBTITAN001" |}.

Definition cohere_embed_knowledge_base : KnowledgeBase :=
  {| kb_name := "cohere-embed-english-v3-knowledge-base";
     knowledgeBaseId := "KBCOHERE01" |}.

Definition kbs : list KnowledgeBase :=
  [amazon_titan_knowledge_base; cohere_embed_knowledge_base].

Definition bedrock_embeddings : list Embeddings :=
  [{| model_id := "amazon.titan-embed-text-v2:0" |};
   {| model_id := "cohere.embed-english-v3" |}].

Definition metrics : list Metric :=
  [answer_relevancy; context_precision; context_recall;
   context_entity_recall; answer_similarity; answer_correctness].

(** The sample world counts the calls made to the ports. *)
Definition World : Type := nat.

(** A retriever that always finds two chunks. *)
Definition retrieve_two (r : Retriever) (q : string) (w : World)
  : option (list Document) * World :=
  (Some [{| page_content := "Net cash provided by operating activities" |};
         {| page_content := "Net cash used in investing activities" |}], S w).

(** A retriever that finds nothing, without raising. *)
Definition retrieve_nothing (r : Retriever) (q : string) (w : World)
  : option (list Document) * World :=
  (Some [], S w).

(** A retriever that raises for the Cohere knowledge base only. *)
Definition retrieve_cohere_down (r : Retriever) (q : string) (w : World)
  : option (list Document) * World :=
  if decide (knowledge_base_id r = "KBCOHERE01") then (None, S w)
  else retrieve_two r q w.

(** A generator that always answers. *)
Definition generate_ok (docs : list Document) (q : string) (w : World)
  : option string * World :=
  (Some "An increase in net income.", S w).

(** Scores: answer_similarity cannot be scored, the rest score 4/5. *)
Definition score_45 (e : Embeddings) (m : Metric) (row : Row) (w : World)
  : option Qc :=
  match m with
  | answer_similarity => None
  | _ => Some (Q2Qc (4 # 5))
  end.

(** Scores: nothing can be scored. *)
Definition score_none (e : Embeddings) (m : Metric) (row : Row) (w : World)
  : option Qc := None.

Definition effect_tick (d : Data) (ms : list Metric) (e : Embeddings)
  (w : World) : World := S w.

(** A Ragas that lets no scorer's exception through. *)
Definition no_raise (d : Data) (ms : list Metric) (e : Embeddings)
  (w : World) : bool := false.

(** A Ragas that lets an exception through when it scores with the Cohere
    embeddings. *)
Definition raise_for_cohere (d : Data) (ms : list Metric) (e : Embeddings)
  (w : World) : bool :=
  bool_decide (model_id e = "cohere.embed-english-v3").

(** The position of a row in the dataset, read off its ground truth. *)
Definition row_number (row : Row) : option nat :=
  fst <$> list_find (fun g => g = row_ground_truth row) ground_truth.

(** Scores: answer_relevancy fails on the last row and is 4/5 elsewhere; the
    other metrics score 1/2. *)
Definition score_one_error (e : Embeddings) (m : Metric) (row : Row)
  (w : World) : option Qc :=
  match m with
  | answer_relevancy =>
      if decide (row_number row = Some 2) then None else Some (Q2Qc (4 # 5))
  | _ => Some (Q2Qc (1 # 2))
  end.

(** Scores: answer_relevancy is 4/5 on the first row and fails elsewhere; the
    other metrics score 1/2. *)
Definition score_two_errors (e : Embeddings) (m : Metric) (row : Row)
  (w : World) : option Qc :=
  match m with
  | answer_relevancy =>
      if decide (row_number row = Some 0) then Some (Q2Qc (4 # 5)) else None
  | _ => Some (Q2Qc (1 # 2))
  end.

(** Scores: 1/5 with the Titan embeddings, 9/10 with the Cohere ones. *)
Definition score_by_model (e : Embeddings) (m : Metric) (row : Row)
  (w : World) : option Qc :=
  if decide (model_id e = "cohere.embed-english-v3")
  then Some (Q2Qc (9 # 10)) else Some (Q2Qc (1 # 5)).

(** The run of the notebook with healthy ports and the given scores, and the
    table it returns. *)
Definition run (score : Embeddings -> Metric -> Row -> World -> option Qc)
  : (exn + PyDict.t DataFrame) * World :=
  run_evaluation retrieve_two generate_ok score effect_tick no_raise
    raw_questions
    ground_truth kbs bedrock_embeddings metrics 0.

Definition table_of (score : Embeddings -> Metric -> Row -> World -> option Qc)
  : PyDict.t DataFrame :=
  match (run score).1 with
  | inr table => table
  | inl _ => []
  end.

(** The table of a run that returned, for any inputs. *)
Definition table_from (r : (exn + PyDict.t DataFrame) * World)
  : PyDict.t DataFrame :=
  match r.1 with
  | inr table => table
  | inl _ => []
  end.

(** A retriever that always raises. *)
Definition retrieve_down (r : Retriever) (q : string) (w : World)
  : option (list Document) * World := (None, S w).

(** Two knowledge bases registered under one id. *)
Definition kbs_shared_id : list KnowledgeBase :=
  [amazon_titan_knowledge_base;
   {| kb_name := "amazon-titan-embedding-v2-copy";
      knowledgeBaseId := "KBTITAN001" |}].

(** The metrics without answer_similarity. *)
Definition metrics_without_similarity : list Metric :=
  [answer_relevancy; context_precision; context_recall;
   context_entity_recall; answer_correctness].

End Sample.

(** ** The cell that tries one question on every retriever *)

(** The line feed of the f-strings. *)
Definition LF : string := String (Ascii.ascii_of_nat 10) EmptyString.

Section TryQuery.
Context {World : Type}.
Variable retrieve : Retriever -> string -> World -> option (list Document) * World.
Variable generate : list Document -> string -> World -> option string * World.

(** What the two [print] calls of one round are given. *)
Definition printed_for (retriever : Retriever) (response : Response)
  : list string :=
  ["KB: " +:+ knowledge_base_id retriever +:+ " " +:+ LF;
   result response +:+ LF +:+ LF].

(** [for retriever in retrievers: response = qa_chain.invoke(query);
    print(...); print(...)]. What has been printed stays printed when a
    later round raises, so the output is returned beside the outcome. *)
Fixpoint try_query (rs : list Retriever) (query : string)
  (printed : list string) (w : World)
  : option exn * list string * World :=
  match rs with
  | [] => (None, printed, w)
  | retriever :: rs' =>
      match qa_chain_invoke retrieve generate retriever query w with
      | (inl e, w') => (Some e, printed, w')
      | (inr response, w') =>
          try_query rs' query (printed ++ printed_for retriever response) w'
      end
  end.

(** The world after the chain has been invoked with the query through each
    of the given retrievers in turn. *)
Fixpoint world_tried (rs : list Retriever) (query : string) (w : World)
  : World :=
  match rs with
  | [] => w
  | retriever :: rs' =>
      world_tried rs' query
        (qa_chain_invoke retrieve generate retriever query w).2
  end.

End TryQuery.

(** * Properties *)

(** ** The monad *)

Section MonadFacts.
Context {World : Type}.

(** A sequence that returns has run both of its parts. *)
Lemma bind_inr_inv {A B} (c : M World A) (k : A -> M World B) w b w2 :
  bind c k w = (inr b, w2) ->
  exists a w1, c w = (inr a, w1) /\ k a w1 = (inr b, w2).
Proof.
  unfold bind. destruct (c w) as [[e|a] w1]; intros H.
  - discriminate.
  - exists a, w1. split; [reflexivity | exact H].
Qed.
End MonadFacts.

(** ** Column means *)

Lemma count_valid_successful (col : list (option Qc)) :
  count_valid col = length (successful col).
Proof.
  induction col as [|[v|] col IH]; simpl; [done | | done].
  by rewrite IH.
Qed.

Lemma nansum_successful (col : list (option Qc)) :
  nansum col = foldr Qcplus 0%Qc (successful col).
Proof.
  induction col as [|[v|] col IH]; [done | | ].
  - change (nansum (Some v :: col)) with (v + nansum col)%Qc.
    by rewrite IH.
  - change (nansum (None :: col)) with (0 + nansum col)%Qc.
    by rewrite Qcplus_0_l, IH.
Qed.

Lemma successful_nil_iff (col : list (option Qc)) :
  successful col = [] <-> Forall (fun v => v = None) col.
Proof.
  induction col as [|[v|] col IH]; simpl.
  - split; [constructor | done].
  - split; [done |]. intros H. inversion H; discriminate.
  - rewrite IH. split.
    + intros H. by constructor.
    + intros H. by inversion H.
Qed.

Lemma nanmean_no_data (col : list (option Qc)) :
  successful col = [] -> nanmean col = None.
Proof.
  intros H. unfold nanmean. rewrite count_valid_successful, H. done.
Qed.

Lemma nanmean_some_data (col : list (option Qc)) :
  successful col <> [] ->
  nanmean col = Some (arithmetic_mean (successful col)).
Proof.
  intros H. unfold nanmean, arithmetic_mean.
  rewrite count_valid_successful, nansum_successful.
  destruct (successful col) as [|v vs]; [done | reflexivity].
Qed.

(** ** The averaging cell *)

Lemma numeric_cols_NoDup : NoDup numeric_cols.
Proof. apply (bool_decide_unpack _). by vm_compute. Qed.

Lemma select_Forall2 (cols : list string) (df : DataFrame) sel :
  select cols df = inr sel ->
  Forall2 (fun c p => p.1 = c /\ column c df = Some p.2) cols sel.
Proof.
  revert sel. induction cols as [|c cols IH]; simpl; intros sel H.
  - inversion H. constructor.
  - destruct (column c df) as [col|] eqn:Hc; [|discriminate].
    destruct (select cols df) as [e|rest]; [discriminate|].
    inversion H; subst. constructor; [done | by apply IH].
Qed.

Lemma mean_Forall2 (sel : list (string * Column)) (s : Series) :
  mean sel = inr s ->
  Forall2 (fun p q => q.1 = p.1 /\ exists l, p.2 = NumCol l /\ q.2 = nanmean l)
    sel s.
Proof.
  revert s. induction sel as [|[c col] sel IH]; simpl; intros s H.
  - inversion H. constructor.
  - destruct col as [l|l|l]; try discriminate.
    destruct (mean sel) as [e|rest]; [discriminate|].
    inversion H; subst. constructor; [|by apply IH].
    split; [done|]. by exists l.
Qed.

(** A label that occurs once is found where it stands. *)
Lemma get_at_position {V} (s : list (string * V)) (j : nat) c v :
  NoDup (map fst s) -> s !! j = Some (c, v) -> PyDict.get c s = Some v.
Proof.
  revert j. induction s as [|[c' v'] s IH]; intros j Hnd Hj; [done|].
  simpl in *. apply NoDup_cons in Hnd as [Hnotin Hnd].
  destruct j as [|j]; simpl in Hj.
  - inversion Hj; subst. by rewrite decide_True.
  - rewrite decide_False; [by eapply IH|].
    intros ->. apply Hnotin. apply list_elem_of_fmap.
    exists (c, v). split; [done|]. by eapply list_elem_of_lookup_2.
Qed.

(** The means of the selected columns, re-indexed on the same labels, are
    the column means in the order of the labels. *)
Lemma reindex_means (cols : list string) (df : DataFrame) sel s j c :
  NoDup cols ->
  select cols df = inr sel -> mean sel = inr s ->
  cols !! j = Some c ->
  exists l, column c df = Some (NumCol l)
            /\ reindex cols s !! j = Some (nanmean l).
Proof.
  intros Hnd Hsel Hmean Hj.
  apply select_Forall2 in Hsel. apply mean_Forall2 in Hmean.
  destruct (Forall2_lookup_l _ _ _ _ _ Hsel Hj) as ([c1 col] & Hselj & Hc1 & Hcol).
  destruct (Forall2_lookup_l _ _ _ _ _ Hmean Hselj) as ([c2 v] & Hsj & Hc2 & l & Hl & Hv).
  simpl in *. subst. exists l. split; [done|].
  assert (Hlabels : map fst s = cols).
  { clear -Hsel Hmean. revert s Hmean.
    induction Hsel as [|c p cols sel [Hp _] _ IH]; intros s Hmean;
      inversion Hmean as [|? q ? s' [Hq _] Hrest]; subst; [done|].
    simpl. rewrite Hq. f_equal. by apply IH. }
  unfold reindex. rewrite list_lookup_fmap, Hj. simpl.
  rewrite (get_at_position s j c (nanmean l)); [done | by rewrite Hlabels | done].
Qed.

Lemma means_loop_acc (kbs : list KnowledgeBase) items ms ns ms' ns' :
  means_loop kbs items ms ns = inr (ms', ns') ->
  exists ss,
    ms' = ms ++ ss
    /\ ns' = ns ++ map (fun kd => kb_name_of kbs kd.1) items
    /\ Forall2 (fun kd s => exists sel, select numeric_cols kd.2 = inr sel
                                        /\ mean sel = inr s) items ss.
Proof.
  revert ms ns. induction items as [|[key df] items IH]; cbn [means_loop]; intros ms ns H.
  - inversion H; subst. exists []. by rewrite !app_nil_r.
  - destruct (select numeric_cols df) as [e|sel] eqn:Hsel; [discriminate|].
    destruct (mean sel) as [e|s] eqn:Hmean; [discriminate|].
    destruct (IH _ _ H) as (ss & -> & -> & Hall).
    exists (s :: ss). rewrite <- !app_assoc.
    split; [done|]. split; [done|].
    constructor; [by exists sel | done].
Qed.

(** Every entry of the summary is the pandas mean of its column. *)
Lemma summarize_entry (kbs : list KnowledgeBase) table mf b key df j c :
  summarize kbs table = inr mf ->
  PyDict.items table !! b = Some (key, df) ->
  numeric_cols !! j = Some c ->
  exists l, column c df = Some (NumCol l)
            /\ summary_entry mf b j = Some (nanmean l).
Proof.
  unfold summarize. intros H Hb Hj.
  destruct (means_loop kbs (PyDict.items table) [] []) as [e|[ms ns]] eqn:Hloop;
    [discriminate|].
  inversion H; subst; clear H.
  apply means_loop_acc in Hloop as (ss & -> & -> & Hall).
  destruct (Forall2_lookup_l _ _ _ _ _ Hall Hb) as (s & Hs & sel & Hsel & Hmean).
  simpl in *.
  destruct (reindex_means numeric_cols df sel s j c numeric_cols_NoDup Hsel Hmean Hj)
    as (l & Hcol & Hre).
  exists l. split; [done|].
  unfold summary_entry. simpl. rewrite list_lookup_fmap, Hs. simpl. done.
Qed.

(** The labels of the summary follow the order of [dfs.items()]. *)
Lemma summarize_index (kbs : list KnowledgeBase) table mf :
  summarize kbs table = inr mf ->
  index mf = map (fun key => display_names !! kb_name_of kbs key)
               (PyDict.keys table)
  /\ columns mf = numeric_cols
  /\ length (values mf) = length table.
Proof.
  unfold summarize. intros H.
  destruct (means_loop kbs (PyDict.items table) [] []) as [e|[ms ns]] eqn:Hloop;
    [discriminate|].
  inversion H; subst; clear H.
  apply means_loop_acc in Hloop as (ss & -> & -> & Hall).
  simpl. split; [|split; [done|]].
  - unfold PyDict.keys, PyDict.items. rewrite !map_map. done.
  - rewrite length_map. symmetry. by eapply Forall2_length.
Qed.

Lemma select_returns (cols : list string) (df : DataFrame) :
  forallb (has_numeric df) cols = true ->
  exists sel, select cols df = inr sel
              /\ Forall (fun p => exists l, p.2 = NumCol l) sel.
Proof.
  induction cols as [|c cols IH]; intros H.
  - exists []. by split.
  - cbn [forallb] in H. apply andb_prop in H as [Hc Hcols].
    destruct (IH Hcols) as (sel & Hsel & Hnum).
    unfold has_numeric in Hc. cbn [select].
    destruct (column c df) as [[l|l|l]|]; try discriminate.
    rewrite Hsel. exists ((c, NumCol l) :: sel). split; [done|].
    constructor; [by exists l | done].
Qed.

Lemma mean_returns (sel : list (string * Column)) :
  Forall (fun p => exists l, p.2 = NumCol l) sel ->
  exists s, mean sel = inr s.
Proof.
  induction 1 as [|[c col] sel [l Hl] _ [s IH]].
  - by exists [].
  - simpl in Hl. subst col. cbn [mean]. rewrite IH. eauto.
Qed.

(** The averaging cell returns on every table that can be averaged. *)
Lemma summarize_returns (kbs : list KnowledgeBase)
  (table : PyDict.t DataFrame) :
  scored_table table = true -> exists mf, summarize kbs table = inr mf.
Proof.
  intros H. unfold summarize.
  assert (Hloop : forall ms ns,
            exists ms' ns',
              means_loop kbs (PyDict.items table) ms ns = inr (ms', ns')).
  { unfold PyDict.items. unfold scored_table in H.
    induction table as [|[key df] table IH]; intros ms ns.
    - by exists ms, ns.
    - cbn [forallb] in H. apply andb_prop in H as [Hdf Htable].
      cbn [means_loop].
      destruct (select_returns numeric_cols df Hdf) as (sel & -> & Hnum).
      destruct (mean_returns sel Hnum) as [srs ->].
      by apply IH. }
  destruct (Hloop [] []) as (ms' & ns' & ->). eauto.
Qed.

(** C3. On every table that can be averaged the averaging cell returns a
    summary, and for a backend (the [b]-th entry of the table) and a metric
    (the [j]-th numeric column) whose column holds no successful value, the
    summary holds the missing-value marker NaN ([None]) and not the number
    zero; whenever the column does hold a successful value the summary holds
    a number, so the marker appears exactly when nothing could be scored. *)
Theorem summarize_no_data_marker (kbs : list KnowledgeBase)
  (table : PyDict.t DataFrame) (b j : nat)
  (key c : string) (df : DataFrame) (l : list (option Qc)) :
  scored_table table = true ->
  PyDict.items table !! b = Some (key, df) ->
  numeric_cols !! j = Some c ->
  column c df = Some (NumCol l) ->
  exists mf,
    summarize kbs table = inr mf
    /\ (successful l = [] ->
          summary_entry mf b j = Some None
          /\ summary_entry mf b j <> Some (Some 0%Qc))
    /\ (successful l <> [] ->
          exists x, summary_entry mf b j = Some (Some x)).
Proof.
  intros Hscored Hb Hj Hcol.
  destruct (summarize_returns kbs table Hscored) as [mf Hsum].
  exists mf. split; [done|].
  destruct (summarize_entry kbs table mf b key df j c Hsum Hb Hj)
    as (l' & Hcol' & Hentry).
  rewrite Hcol in Hcol'. inversion Hcol'; subst l'; clear Hcol'.
  split.
  - intros Hnone. rewrite Hentry, (nanmean_no_data l Hnone).
    split; [done | discriminate].
  - intros Hsome. rewrite Hentry, (nanmean_some_data l Hsome). eauto.
Qed.

Lemma summarize_no_data_marker_witness :
  exists mf,
    summarize Sample.kbs (Sample.table_of Sample.score_45) = inr mf
    /\ summary_entry mf 0 4 = Some None
    /\ summary_entry mf 0 4 <> Some (Some 0%Qc).
Proof.
  destruct (summarize_no_data_marker Sample.kbs
              (Sample.table_of Sample.score_45) 0 4
              "KBTITAN001" "answer_similarity" _ [None; None; None]
              eq_refl eq_refl eq_refl eq_refl) as (mf & Hsum & Hnone & _).
  exists mf. split; [exact Hsum | exact (Hnone eq_refl)].
Defined.

(** C4, as the code has it. On every table that can be averaged the
    averaging cell returns a summary, and for a backend and a metric with at
    least one successful cell, the summary entry is the arithmetic mean of
    exactly the successful values of the column: failed cells enter neither
    the sum nor the count. *)
Theorem summarize_mean_of_successful (kbs : list KnowledgeBase)
  (table : PyDict.t DataFrame) (b j : nat)
  (key c : string) (df : DataFrame) (l : list (option Qc)) :
  scored_table table = true ->
  PyDict.items table !! b = Some (key, df) ->
  numeric_cols !! j = Some c ->
  column c df = Some (NumCol l) ->
  successful l <> [] ->
  exists mf,
    summarize kbs table = inr mf
    /\ summary_entry mf b j = Some (Some (arithmetic_mean (successful l))).
Proof.
  intros Hscored Hb Hj Hcol Hsome.
  destruct (summarize_returns kbs table Hscored) as [mf Hsum].
  exists mf. split; [done|].
  destruct (summarize_entry kbs table mf b key df j c Hsum Hb Hj)
    as (l' & Hcol' & Hentry).
  rewrite Hcol in Hcol'. inversion Hcol'; subst l'; clear Hcol'.
  by rewrite Hentry, (nanmean_some_data l Hsome).
Qed.

Lemma summarize_mean_of_successful_witness :
  exists mf,
    summarize Sample.kbs (Sample.table_of Sample.score_two_errors) = inr mf
    /\ summary_entry mf 0 0
       = Some (Some (arithmetic_mean [Q2Qc (4 # 5)])).
Proof.
  refine (summarize_mean_of_successful Sample.kbs
            (Sample.table_of Sample.score_two_errors) 0 0
            "KBTITAN001" "answer_relevancy" _
            [Some (Q2Qc (4 # 5)); None; None]
            eq_refl eq_refl eq_refl eq_refl _).
  discriminate.
Defined.

(** C4, as stated, fails: the number of failed cells is not kept in the
    summary. Two runs of the notebook that differ only in the scores of
    answer_relevancy, which fails on one row in the first and on two rows in
    the second, have the same summary, so no reading of the summary gives the
    count back. *)
Lemma error_count_not_recorded :
  ~ exists count_of : MeansFrame -> nat,
      forall score table w' mf df l,
        Sample.run score = (inr table, w') ->
        summarize Sample.kbs table = inr mf ->
        PyDict.items table !! 0 = Some ("KBTITAN001", df) ->
        column "answer_relevancy" df = Some (NumCol l) ->
        count_of mf = error_count l.
Proof.
  intros [count_of H].
  assert (R1 : Sample.run Sample.score_one_error
               = (inr (Sample.table_of Sample.score_one_error), 14))
    by reflexivity.
  assert (R2 : Sample.run Sample.score_two_errors
               = (inr (Sample.table_of Sample.score_two_errors), 14))
    by reflexivity.
  assert (Hsame : summarize Sample.kbs (Sample.table_of Sample.score_one_error)
                  = summarize Sample.kbs
                      (Sample.table_of Sample.score_two_errors)).
  { apply (bool_decide_unpack _). by vm_compute. }
  destruct (summarize Sample.kbs (Sample.table_of Sample.score_one_error))
    as [e|mf] eqn:H1.
  - revert H1. apply (bool_decide_unpack _). by vm_compute.
  - pose proof (H _ _ _ mf _ _ R1 H1 eq_refl eq_refl) as E1.
    pose proof (H _ _ _ mf _ _ R2 (eq_sym Hsame) eq_refl eq_refl) as E2.
    rewrite E1 in E2. vm_compute in E2. discriminate.
Qed.

(** C8. Running the averaging cell a second time changes nothing: started
    from the globals it has just produced it produces them again; what it
    assigns to [means_df] is a function of [dfs] alone; and it gives the same
    result from any other globals that hold the same [dfs], whatever [means],
    [kb_names] and [means_df] were before. *)
Theorem means_cell_idempotent (kbs : list KnowledgeBase) (g g' : Globals) :
  means_cell kbs g = inr g' ->
  means_cell kbs g' = inr g'
  /\ (exists mf, summarize kbs (dfs g) = inr mf /\ means_df g' = Some mf)
  /\ (forall h, dfs h = dfs g -> means_cell kbs h = inr g').
Proof.
  unfold means_cell, summarize. intros H.
  destruct (means_loop kbs (PyDict.items (dfs g)) [] []) as [e|[ms ns]] eqn:Hloop;
    [discriminate|].
  inversion H; subst g'; clear H. simpl.
  split; [by rewrite Hloop|]. split; [eauto|].
  intros h ->. by rewrite Hloop.
Qed.

Lemma means_cell_idempotent_witness :
  let g := {| dfs := Sample.table_of Sample.score_by_model;
              means := [[("stale", None)]];
              kb_names := ["stale"];
              means_df := None |} in
  exists g', means_cell Sample.kbs g = inr g'
             /\ means_cell Sample.kbs g' = inr g'.
Proof.
  intros g. eexists. split; [reflexivity|].
  exact (proj1 (means_cell_idempotent Sample.kbs g _ eq_refl)).
Defined.

(** ** Building the datasets *)

Lemma zip_rows_question (qs ans : list string) (cs : list (list string))
  (gs : list string) (row : Row) :
  row ∈ zip_rows qs ans cs gs -> row_question row ∈ qs.
Proof.
  revert ans cs gs.
  induction qs as [|q qs IH]; intros [|a ans] [|c cs] [|g gs]; simpl;
    try (intros Hin; by inversion Hin).
  intros Hin. apply elem_of_cons in Hin as [->|Hin].
  - by left.
  - right. by eapply IH.
Qed.

Lemma zip_rows_length (qs ans : list string) (cs : list (list string))
  (gs : list string) :
  length ans = length qs -> length cs = length qs -> length gs = length qs ->
  length (zip_rows qs ans cs gs) = length qs.
Proof.
  revert ans cs gs.
  induction qs as [|q qs IH]; intros [|a ans] [|c cs] [|g gs]; simpl;
    try done.
  intros Ha Hc Hg. f_equal. apply IH; lia.
Qed.

Section DatasetFacts.
Context {World : Type}.
Variable retrieve : Retriever -> string -> World -> option (list Document) * World.
Variable generate : list Document -> string -> World -> option string * World.
Variable raw_questions : list string.
Variable ground_truth : list string.

Local Abbreviation invoke := (qa_chain_invoke retrieve generate).
Local Abbreviation answer_loop' := (answer_loop retrieve generate).
Local Abbreviation responses' := (responses retrieve generate).
Local Abbreviation world_after' := (world_after retrieve generate).
Local Abbreviation all_answered' := (all_answered retrieve generate).
Local Abbreviation questions' := (questions raw_questions).
Local Abbreviation execute_rag' :=
  (execute_rag retrieve generate raw_questions ground_truth).

(** What the chain does, by the outcome of its two ports. *)
Lemma qa_chain_invoke_cases (r : Retriever) (q : string) (w : World) :
  match retrieve r q w with
  | (None, w1) => invoke r q w = (inl RetrievalError, w1)
  | (Some docs, w1) =>
      match generate docs q w1 with
      | (None, w2) => invoke r q w = (inl GenerationError, w2)
      | (Some text, w2) =>
          invoke r q w
          = (inr {| result := text; source_documents := docs |}, w2)
      end
  end.
Proof.
  unfold qa_chain_invoke, bind, port.
  destruct (retrieve r q w) as [[docs|] w1]; [|done].
  destruct (generate docs q w1) as [[text|] w2]; done.
Qed.

Lemma qa_chain_invoke_exn (r : Retriever) (q : string) (w : World) e w' :
  invoke r q w = (inl e, w') -> e = RetrievalError \/ e = GenerationError.
Proof.
  pose proof (qa_chain_invoke_cases r q w) as H.
  destruct (retrieve r q w) as [[docs|] w1].
  - destruct (generate docs q w1) as [[text|] w2]; rewrite H; intros E;
      inversion E; auto.
  - rewrite H. intros E. inversion E; auto.
Qed.

Lemma answer_loop_ok (r : Retriever) (qs : list string) acc_a acc_c w :
  all_answered' r qs w = true ->
  answer_loop' r qs acc_a acc_c w
  = (inr (acc_a ++ map result (responses' r qs w),
          acc_c ++ map contexts_of (responses' r qs w)),
     world_after' r qs w).
Proof.
  revert acc_a acc_c w. induction qs as [|q qs IH]; intros acc_a acc_c w H.
  - simpl. by rewrite !app_nil_r.
  - cbn [answer_loop all_answered responses world_after] in *.
    unfold bind at 1.
    destruct (invoke r q w) as [[e|resp] w1]; [discriminate|].
    rewrite (IH _ _ _ H). simpl. by rewrite <- !app_assoc.
Qed.

Lemma answer_loop_raises (r : Retriever) (qs : list string) acc_a acc_c w :
  all_answered' r qs w = false ->
  exists e w', answer_loop' r qs acc_a acc_c w = (inl e, w')
               /\ (e = RetrievalError \/ e = GenerationError).
Proof.
  revert acc_a acc_c w. induction qs as [|q qs IH]; intros acc_a acc_c w H.
  - discriminate.
  - cbn [answer_loop all_answered] in *. unfold bind at 1.
    destruct (invoke r q w) as [[e|resp] w1] eqn:E.
    + exists e, w1. split; [done|]. by eapply qa_chain_invoke_exn.
    + by apply IH.
Qed.

Lemma responses_length (r : Retriever) (qs : list string) w :
  all_answered' r qs w = true -> length (responses' r qs w) = length qs.
Proof.
  revert w. induction qs as [|q qs IH]; intros w H; [done|].
  cbn [all_answered responses] in *.
  destruct (invoke r q w) as [[e|resp] w1]; [discriminate|].
  simpl. by rewrite IH.
Qed.

(** The i-th response is the chain's answer to the i-th question, asked in
    the world left by the questions before it. *)
Lemma responses_lookup (r : Retriever) (qs : list string) w i q :
  all_answered' r qs w = true ->
  qs !! i = Some q ->
  exists response w',
    invoke r q (world_after' r (take i qs) w) = (inr response, w')
    /\ responses' r qs w !! i = Some response.
Proof.
  revert w i. induction qs as [|q0 qs IH]; intros w i H Hi; [done|].
  cbn [all_answered responses] in *.
  destruct (invoke r q0 w) as [[e|resp] w1] eqn:E; [discriminate|].
  destruct i as [|i]; simpl in Hi.
  - inversion Hi; subst. simpl. rewrite E. eauto.
  - destruct (IH w1 i H Hi) as (response & w' & Hinv & Hresp).
    exists response, w'. split; [|done].
    cbn [take world_after]. by rewrite E.
Qed.

Lemma qa_chain_invoke_inr (r : Retriever) (q : string) (w : World) response w' :
  invoke r q w = (inr response, w') ->
  exists w1,
    retrieve r q w = (Some (source_documents response), w1)
    /\ generate (source_documents response) q w1 = (Some (result response), w').
Proof.
  pose proof (qa_chain_invoke_cases r q w) as H.
  destruct (retrieve r q w) as [[docs|] w1]; [|rewrite H; discriminate].
  destruct (generate docs q w1) as [[text|] w2] eqn:G; rewrite H;
    [|discriminate].
  intros E. inversion E; subst. simpl. eauto.
Qed.

Lemma execute_rag_ok (r : Retriever) (w : World) :
  all_answered' r questions' w = true ->
  execute_rag' r w
  = (inr (knowledge_base_id r,
          {| col_question := questions';
             col_answer := map result (responses' r questions' w);
             col_contexts := map contexts_of (responses' r questions' w);
             col_ground_truth := ground_truth |}),
     world_after' r questions' w).
Proof.
  intros H. unfold execute_rag, bind.
  by rewrite (answer_loop_ok r _ [] [] w H).
Qed.

Lemma execute_rag_raises (r : Retriever) (w : World) :
  all_answered' r questions' w = false ->
  exists e w', execute_rag' r w = (inl e, w')
               /\ (e = RetrievalError \/ e = GenerationError).
Proof.
  intros H. unfold execute_rag, bind.
  destruct (answer_loop_raises r _ [] [] w H) as (e & w' & -> & He).
  eauto.
Qed.

Lemma execute_rag_inr (r : Retriever) (w : World) kb_id data w' :
  execute_rag' r w = (inr (kb_id, data), w') ->
  all_answered' r questions' w = true
  /\ kb_id = knowledge_base_id r
  /\ data = {| col_question := questions';
               col_answer := map result (responses' r questions' w);
               col_contexts := map contexts_of (responses' r questions' w);
               col_ground_truth := ground_truth |}
  /\ w' = world_after' r questions' w.
Proof.
  intros H. destruct (all_answered' r questions' w) eqn:E.
  - rewrite (execute_rag_ok r w E) in H. by inversion H.
  - destruct (execute_rag_raises r w E) as (e & w1 & H1 & _).
    rewrite H1 in H. discriminate.
Qed.

Lemma length_append (s1 s2 : string) :
  String.length (s1 +:+ s2) = String.length s1 + String.length s2.
Proof. induction s1 as [|a s1 IH]; simpl; [done | by rewrite IH]. Qed.

Lemma prefixed_differs (raw : string) : prefix +:+ raw <> raw.
Proof.
  intros H. apply (f_equal String.length) in H.
  rewrite length_append in H.
  assert (0 < String.length prefix) by (vm_compute; lia). lia.
Qed.

(** C9. The dataset returned by [execute_rag] keeps its four lists aligned:
    they have one length (the questions and the ground truths are given in
    equal number), and the i-th answer and the i-th contexts are those of the
    response that the QA chain gave to the i-th question, asked after the
    questions before it. *)
Theorem execute_rag_aligned (r : Retriever) (w : World) kb_id data w' :
  length ground_truth = length raw_questions ->
  execute_rag' r w = (inr (kb_id, data), w') ->
  length (col_question data) = length raw_questions
  /\ length (col_answer data) = length raw_questions
  /\ length (col_contexts data) = length raw_questions
  /\ length (col_ground_truth data) = length raw_questions
  /\ forall i query,
       col_question data !! i = Some query ->
       exists response wi,
         invoke r query (world_after' r (take i (col_question data)) w)
         = (inr response, wi)
         /\ col_answer data !! i = Some (result response)
         /\ col_contexts data !! i = Some (contexts_of response).
Proof.
  intros Hlen H.
  apply execute_rag_inr in H as (Hall & _ & -> & _). simpl.
  pose proof (responses_length r _ w Hall) as Hn.
  assert (Hq : length questions' = length raw_questions)
    by (unfold questions; apply length_map).
  rewrite !length_map, Hn, Hq.
  repeat split; try done.
  intros i query Hi.
  destruct (responses_lookup r _ w i query Hall Hi) as (resp & wi & Hinv & Hresp).
  exists resp, wi. rewrite !list_lookup_fmap, Hresp. done.
Qed.

(** An invariant of the datasets that the loop stores. *)
Lemma datasets_loop_inv (P : Data -> Prop) (rs : list Retriever)
  (ds0 : gmap string Data) (w : World) ds w' :
  (forall r w0 k d w1, r ∈ rs -> execute_rag' r w0 = (inr (k, d), w1) -> P d) ->
  (forall k d, ds0 !! k = Some d -> P d) ->
  datasets_loop retrieve generate raw_questions ground_truth rs ds0 w
  = (inr ds, w') ->
  forall k d, ds !! k = Some d -> P d.
Proof.
  revert ds0 w. induction rs as [|r rs IH]; intros ds0 w Hex H0 H.
  - inversion H; subst. done.
  - cbn [datasets_loop] in H.
    apply bind_inr_inv in H as ([k1 d1] & w1 & Hrag & H).
    apply bind_inr_inv in H as (d2 & w2 & Hfrom & H).
    simpl in *. unfold Dataset_from_dict in Hfrom.
    destruct (same_lengths d1); [|discriminate].
    inversion Hfrom; subst d2 w2; clear Hfrom.
    eapply IH; [| |exact H].
    + intros r' w0 k d w3 Hr'. apply Hex. by right.
    + intros k d. destruct (decide (k1 = k)) as [->|Hne].
      * rewrite lookup_insert_eq. intros E; inversion E; subst.
        eapply Hex; [by left | exact Hrag].
      * rewrite lookup_insert_ne by done. apply H0.
Qed.

(** C10. Every dataset in [datasets] holds, as its questions, the original
    questions each preceded by [prefix] (which begins with the instruction on
    the length of answers), so the question of every row that is scored
    differs from the original one; and every dataset holds the same list of
    prefixed questions and the same list of ground truths. *)
Theorem datasets_prefixed_questions (kbs : list KnowledgeBase) (w : World)
  datasets w' :
  datasets_loop retrieve generate raw_questions ground_truth
    (retrievers kbs) ∅ w = (inr datasets, w') ->
  String.prefix "Keep your answers under 2000 characters in length." prefix
  = true
  /\ forall kb_id ds,
       datasets !! kb_id = Some ds ->
       col_question ds = map (fun raw => prefix +:+ raw) raw_questions
       /\ col_ground_truth ds = ground_truth
       /\ (forall i q, col_question ds !! i = Some q ->
             exists raw, raw_questions !! i = Some raw
                         /\ q = prefix +:+ raw /\ q <> raw)
       /\ (forall row, row ∈ dataset_rows ds ->
             exists raw, raw ∈ raw_questions
                         /\ row_question row = prefix +:+ raw).
Proof.
  intros H. split; [reflexivity|].
  intros kb_id ds Hds.
  assert (Hq : col_question ds = questions' /\ col_ground_truth ds = ground_truth).
  { eapply (datasets_loop_inv
              (fun d => col_question d = questions'
                        /\ col_ground_truth d = ground_truth));
      [| |exact H|exact Hds].
    - intros r w0 k d w1 _ Hrag.
      apply execute_rag_inr in Hrag as (_ & _ & -> & _). done.
    - intros k d. by rewrite lookup_empty. }
  destruct Hq as [Hq Hg]. split; [done|]. split; [done|]. split.
  - intros i q. rewrite Hq. unfold questions. rewrite list_lookup_fmap.
    destruct (raw_questions !! i) as [raw|]; [|done].
    simpl. intros E; inversion E; subst.
    exists raw. split; [done|]. split; [done|]. apply prefixed_differs.
  - intros row Hrow. unfold dataset_rows in Hrow.
    apply zip_rows_question in Hrow. rewrite Hq in Hrow.
    unfold questions in Hrow.
    apply list_elem_of_fmap in Hrow as (raw & Hrow & Hraw). eauto.
Qed.

(** C6. When the retrieval port honours the limit it is configured with,
    every contexts entry of every dataset is the text of the chunks that the
    retriever returned for that question, in the order in which it returned
    them, and there are at most 5 of them: the notebook configures every
    retriever with [numberOfResults = 5] and copies all it is given. *)
Theorem contexts_at_most_top_k (kbs : list KnowledgeBase) (w : World)
  datasets w' :
  (forall r q w0 docs w1,
     r ∈ retrievers kbs ->
     retrieve r q w0 = (Some docs, w1) -> length docs <= numberOfResults r) ->
  datasets_loop retrieve generate raw_questions ground_truth
    (retrievers kbs) ∅ w = (inr datasets, w') ->
  forall kb_id ds i ctx,
    datasets !! kb_id = Some ds ->
    col_contexts ds !! i = Some ctx ->
    length ctx <= 5
    /\ exists r q w0 docs w1,
         r ∈ retrievers kbs /\ numberOfResults r = 5
         /\ col_question ds !! i = Some q
         /\ retrieve r q w0 = (Some docs, w1)
         /\ ctx = map page_content docs.
Proof.
  intros Hport H kb_id ds i ctx Hds Hctx.
  assert (Hinv : exists r, r ∈ retrievers kbs /\ numberOfResults r = 5 /\
            forall i ctx, col_contexts ds !! i = Some ctx ->
              exists q w0 docs w1,
                col_question ds !! i = Some q
                /\ retrieve r q w0 = (Some docs, w1)
                /\ ctx = map page_content docs).
  { eapply (datasets_loop_inv
              (fun d => exists r, r ∈ retrievers kbs /\ numberOfResults r = 5 /\
                 forall i ctx, col_contexts d !! i = Some ctx ->
                   exists q w0 docs w1,
                     col_question d !! i = Some q
                     /\ retrieve r q w0 = (Some docs, w1)
                     /\ ctx = map page_content docs));
      [| |exact H|exact Hds].
    - intros r w0 k d w1 Hr Hrag. exists r. split; [done|]. split.
      { unfold retrievers in Hr.
        apply list_elem_of_fmap in Hr as (kb & -> & _). done. }
      apply execute_rag_inr in Hrag as (Hall & _ & -> & _). simpl.
      intros j c Hc. rewrite list_lookup_fmap in Hc.
      destruct (responses' r questions' w0 !! j) as [resp|] eqn:Hresp;
        [|done].
      simpl in Hc. inversion Hc; subst c; clear Hc.
      assert (Hj : j < length questions').
      { rewrite <- (responses_length r _ w0 Hall).
        by eapply lookup_lt_Some. }
      destruct (lookup_lt_is_Some_2 _ _ Hj) as [q Hq].
      destruct (responses_lookup r _ w0 j q Hall Hq) as (resp' & wj & Hinv & Hresp').
      rewrite Hresp in Hresp'. inversion Hresp'; subst resp'.
      apply qa_chain_invoke_inr in Hinv as (w2 & Hret & _).
      exists q, (world_after' r (take j questions') w0),
        (source_documents resp), w2. done.
    - intros k d. by rewrite lookup_empty. }
  destruct Hinv as (r & Hr & H5 & Hall).
  destruct (Hall i ctx Hctx) as (q & w0 & docs & w1 & Hq & Hret & ->).
  split.
  - rewrite length_map, <- H5. by eapply Hport.
  - exists r, q, w0, docs, w1. done.
Qed.

Lemma answer_loop_fails_at (r : Retriever) (qs : list string) acc_a acc_c
  (w : World) i q e w1 :
  qs !! i = Some q ->
  all_answered' r (take i qs) w = true ->
  invoke r q (world_after' r (take i qs) w) = (inl e, w1) ->
  answer_loop' r qs acc_a acc_c w = (inl e, w1).
Proof.
  revert acc_a acc_c w i.
  induction qs as [|q0 qs IH]; intros acc_a acc_c w i Hi Hall Hinv; [done|].
  destruct i as [|i]; simpl in Hi.
  - inversion Hi; subst q0. simpl in Hinv.
    cbn [answer_loop]. unfold bind. by rewrite Hinv.
  - cbn [take all_answered world_after] in *.
    cbn [answer_loop]. unfold bind at 1.
    destruct (invoke r q0 w) as [[e0|resp] w0]; [discriminate|].
    simpl in Hinv. by eapply IH.
Qed.

(** C5, as the code has it. When the questions before the i-th one have been
    answered: if the retrieval port raises on the i-th question,
    [execute_rag] raises the retrieval error; if the generation port raises
    on it, [execute_rag] raises the generation error; either way it returns
    no data. A retrieval that returns no chunk is not an error: the
    generation port is called with no document and the chain returns its
    answer with an empty list of source documents. *)
Theorem record_build_failures (r : Retriever) (w : World) (i : nat)
  (q : string) :
  questions' !! i = Some q ->
  all_answered' r (take i questions') w = true ->
  (forall w1,
     retrieve r q (world_after' r (take i questions') w) = (None, w1) ->
     execute_rag' r w = (inl RetrievalError, w1))
  /\ (forall docs w1 w2,
        retrieve r q (world_after' r (take i questions') w) = (Some docs, w1) ->
        generate docs q w1 = (None, w2) ->
        execute_rag' r w = (inl GenerationError, w2))
  /\ (forall w1 text w2,
        retrieve r q (world_after' r (take i questions') w) = (Some [], w1) ->
        generate [] q w1 = (Some text, w2) ->
        invoke r q (world_after' r (take i questions') w)
        = (inr {| result := text; source_documents := [] |}, w2)).
Proof.
  intros Hi Hall.
  pose proof (qa_chain_invoke_cases r q
                (world_after' r (take i questions') w)) as Hcases.
  split; [|split].
  - intros w1 Hret. rewrite Hret in Hcases.
    unfold execute_rag, bind.
    by rewrite (answer_loop_fails_at r _ [] [] w i q _ _ Hi Hall Hcases).
  - intros docs w1 w2 Hret Hgen. rewrite Hret, Hgen in Hcases.
    unfold execute_rag, bind.
    by rewrite (answer_loop_fails_at r _ [] [] w i q _ _ Hi Hall Hcases).
  - intros w1 text w2 Hret Hgen. by rewrite Hret, Hgen in Hcases.
Qed.

End DatasetFacts.

Lemma execute_rag_aligned_witness :
  exists data w',
    execute_rag Sample.retrieve_two Sample.generate_ok
      Sample.raw_questions Sample.ground_truth
      {| knowledge_base_id := "KBTITAN001"; numberOfResults := 5 |} 0
    = (inr ("KBTITAN001", data), w')
    /\ length (col_question data) = 3
    /\ length (col_answer data) = 3
    /\ length (col_contexts data) = 3
    /\ length (col_ground_truth data) = 3.
Proof.
  eexists _, _. split; [reflexivity|].
  destruct (execute_rag_aligned Sample.retrieve_two Sample.generate_ok
              Sample.raw_questions Sample.ground_truth
              {| knowledge_base_id := "KBTITAN001"; numberOfResults := 5 |}
              0 _ _ _ eq_refl eq_refl) as (H1 & H2 & H3 & H4 & _).
  auto.
Defined.

Lemma datasets_prefixed_questions_witness :
  exists datasets w',
    datasets_loop Sample.retrieve_two Sample.generate_ok
      Sample.raw_questions Sample.ground_truth
      (retrievers Sample.kbs) ∅ 0 = (inr datasets, w')
    /\ forall kb_id ds,
         datasets !! kb_id = Some ds ->
         col_question ds
         = map (fun raw => prefix +:+ raw) Sample.raw_questions
         /\ col_ground_truth ds = Sample.ground_truth.
Proof.
  eexists _, _. split; [reflexivity|].
  intros kb_id ds Hds.
  destruct (datasets_prefixed_questions Sample.retrieve_two Sample.generate_ok
              Sample.raw_questions Sample.ground_truth Sample.kbs 0 _ _
              eq_refl) as [_ H].
  destruct (H kb_id ds Hds) as (Hq & Hg & _). auto.
Defined.

Lemma contexts_at_most_top_k_witness :
  exists datasets w',
    datasets_loop Sample.retrieve_two Sample.generate_ok
      Sample.raw_questions Sample.ground_truth
      (retrievers Sample.kbs) ∅ 0 = (inr datasets, w')
    /\ forall kb_id ds i ctx,
         datasets !! kb_id = Some ds ->
         col_contexts ds !! i = Some ctx ->
         length ctx <= 5.
Proof.
  eexists _, _. split; [reflexivity|].
  intros kb_id ds i ctx Hds Hctx.
  refine (proj1 (contexts_at_most_top_k Sample.retrieve_two Sample.generate_ok
                   Sample.raw_questions Sample.ground_truth Sample.kbs 0 _ _
                   _ eq_refl kb_id ds i ctx Hds Hctx)).
  intros r q w0 docs w1 Hr H.
  apply list_elem_of_fmap in Hr as (kb & -> & _).
  unfold Sample.retrieve_two in H. inversion H; subst. simpl. lia.
Defined.

Lemma record_build_failures_witness :
  execute_rag Sample.retrieve_cohere_down Sample.generate_ok
    Sample.raw_questions Sample.ground_truth
    {| knowledge_base_id := "KBCOHERE01"; numberOfResults := 5 |} 0
  = (inl RetrievalError, 1).
Proof.
  refine (proj1 (record_build_failures Sample.retrieve_cohere_down
                   Sample.generate_ok Sample.raw_questions Sample.ground_truth
                   {| knowledge_base_id := "KBCOHERE01"; numberOfResults := 5 |}
                   0 0 _ eq_refl eq_refl) 1 eq_refl).
Defined.

(** C5, as stated, fails: a retriever that returns no chunk at all raises
    nothing, and [execute_rag] returns a dataset whose three records have
    empty contexts. *)
Lemma zero_contexts_record_built :
  let r := {| knowledge_base_id := "KBTITAN001"; numberOfResults := 5 |} in
  (forall q w, Sample.retrieve_nothing r q w = (Some [], S w))
  /\ exists data w',
       execute_rag Sample.retrieve_nothing Sample.generate_ok
         Sample.raw_questions Sample.ground_truth r 0
       = (inr ("KBTITAN001", data), w')
       /\ col_contexts data = [[]; []; []]
       /\ length (col_answer data) = 3.
Proof.
  intros r. split; [done|]. eexists _, _. split; [reflexivity|]. done.
Qed.

(** ** The whole run *)

Lemma foldl_set_fresh {V} (d0 : PyDict.t V) (l : list (string * V)) :
  NoDup (map fst d0 ++ map fst l) ->
  foldl (fun d kd => PyDict.set kd.1 kd.2 d) d0 l = d0 ++ l.
Proof.
  revert d0. induction l as [|[k v] l IH]; intros d0 Hnd; simpl.
  - by rewrite app_nil_r.
  - assert (Hset : PyDict.set k v d0 = d0 ++ [(k, v)]).
    { assert (Hk : k ∉ map fst d0).
      { apply NoDup_app in Hnd as (_ & Hdisj & _).
        intros Hin. apply (Hdisj k Hin). simpl. by left. }
      clear -Hk. induction d0 as [|[k' v'] d0 IH]; simpl; [done|].
      simpl in Hk. apply not_elem_of_cons in Hk as [Hne Hk].
      rewrite decide_False by done. by rewrite IH. }
    rewrite Hset, IH.
    + by rewrite <- app_assoc.
    + rewrite map_app. simpl. by rewrite <- app_assoc.
Qed.

Lemma zip_with_fst_label {A B C} (f : B -> C) (l : list A) (k : list B) :
  length l = length k ->
  map fst (zip_with (fun a b => (a, f b)) l k) = l.
Proof.
  revert k. induction l as [|a l IH]; intros [|b k] Hlen; simpl in *;
    try done.
  f_equal. apply IH. lia.
Qed.

Lemma kb_name_of_registered (kbs : list KnowledgeBase) (kb : KnowledgeBase) :
  NoDup (map knowledgeBaseId kbs) -> kb ∈ kbs ->
  kb_name_of kbs (knowledgeBaseId kb) = kb_name kb.
Proof.
  induction kbs as [|kb0 kbs IH]; intros Hnd Hin; [by inversion Hin|].
  simpl in *. apply NoDup_cons in Hnd as [Hnotin Hnd].
  apply elem_of_cons in Hin as [->|Hin].
  - by rewrite decide_True.
  - rewrite decide_False; [by apply IH|].
    intros E. apply Hnotin. rewrite E.
    apply list_elem_of_fmap. by exists kb.
Qed.

Lemma length_bind_const {A B} (f : A -> list B) (l : list A) (n : nat) :
  (forall x, x ∈ l -> length (f x) = n) -> length (l ≫= f) = length l * n.
Proof.
  induction l as [|x l IH]; intros H; [done|].
  rewrite bind_cons, length_app, H by (by left).
  rewrite IH; [simpl; lia|]. intros y Hy. apply H. by right.
Qed.

Lemma NoDup_fmap_eq {A B} (f : A -> B) (l : list A) x y :
  NoDup (map f l) -> x ∈ l -> y ∈ l -> f x = f y -> x = y.
Proof.
  induction l as [|a l IH]; intros Hnd Hx Hy E; [by inversion Hx|].
  simpl in Hnd. apply NoDup_cons in Hnd as [Hnotin Hnd].
  apply elem_of_cons in Hx as [->|Hx]; apply elem_of_cons in Hy as [->|Hy].
  - done.
  - exfalso. apply Hnotin. rewrite E. apply list_elem_of_fmap. by exists y.
  - exfalso. apply Hnotin. rewrite <- E. apply list_elem_of_fmap. by exists x.
  - by apply IH.
Qed.

Lemma metric_name_inj (m1 m2 : Metric) :
  metric_name m1 = metric_name m2 -> m1 = m2.
Proof. destruct m1, m2; simpl; intros H; try done; discriminate. Qed.

Section RunFacts.
Context {World : Type}.
Variable retrieve : Retriever -> string -> World -> option (list Document) * World.
Variable generate : list Document -> string -> World -> option string * World.
Variable ragas_score : Embeddings -> Metric -> Row -> World -> option Qc.
Variable ragas_effect : Data -> list Metric -> Embeddings -> World -> World.
Variable ragas_raises : Data -> list Metric -> Embeddings -> World -> bool.
Variable raw_questions : list string.
Variable ground_truth : list string.
Variable kbs : list KnowledgeBase.
Variable bedrock_embeddings : list Embeddings.
Variable metrics : list Metric.

Local Abbreviation questions' := (questions raw_questions).
Local Abbreviation responses' := (responses retrieve generate).
Local Abbreviation all_answered' := (all_answered retrieve generate).
Local Abbreviation world_after' := (world_after retrieve generate).
Local Abbreviation execute_rag' :=
  (execute_rag retrieve generate raw_questions ground_truth).
Local Abbreviation datasets_loop' :=
  (datasets_loop retrieve generate raw_questions ground_truth).
Local Abbreviation all_built' := (all_built retrieve generate raw_questions).
Local Abbreviation world_built' :=
  (world_built retrieve generate raw_questions).
Local Abbreviation dfs_loop' :=
  (dfs_loop ragas_score ragas_effect ragas_raises bedrock_embeddings metrics).
Local Abbreviation calls' :=
  (evaluation_calls ragas_effect ragas_raises bedrock_embeddings metrics).
Local Abbreviation evaluations' :=
  (evaluations ragas_score ragas_effect ragas_raises bedrock_embeddings metrics).
Local Abbreviation built_data' :=
  (built_data retrieve generate raw_questions ground_truth).
Local Abbreviation built_datasets' :=
  (built_datasets retrieve generate raw_questions ground_truth).
Local Abbreviation returns' := (evaluate_returns ragas_raises).
Local Abbreviation evaluate_kb' :=
  (evaluate_kb ragas_score ragas_effect ragas_raises metrics).
Local Abbreviation world_scored' :=
  (world_scored ragas_effect bedrock_embeddings metrics).
Local Abbreviation all_scored' :=
  (all_scored ragas_effect ragas_raises bedrock_embeddings metrics).
Local Abbreviation run_scored' :=
  (run_scored retrieve generate ragas_effect ragas_raises raw_questions
     ground_truth kbs bedrock_embeddings metrics).
Local Abbreviation retriever_of :=
  (fun kb => {| knowledge_base_id := knowledgeBaseId kb;
                numberOfResults := 5 |}).
Local Abbreviation run' :=
  (run_evaluation retrieve generate ragas_score ragas_effect ragas_raises raw_questions
     ground_truth kbs bedrock_embeddings metrics).

Lemma built_data_same_lengths
  (paired : length ground_truth = length raw_questions)
  (r : Retriever) (w : World) :
  all_answered' r questions' w = true ->
  same_lengths
    {| col_question := questions';
       col_answer := map result (responses' r questions' w);
       col_contexts := map contexts_of (responses' r questions' w);
       col_ground_truth := ground_truth |} = true.
Proof.
  intros Hall. unfold same_lengths. simpl.
  rewrite !length_map, (responses_length _ _ r _ w Hall).
  unfold questions. rewrite length_map, paired, !Nat.eqb_refl. done.
Qed.

Lemma datasets_loop_ok
  (paired : length ground_truth = length raw_questions)
  (rs : list Retriever) (ds0 : gmap string Data) (w : World) :
  all_built' rs w = true ->
  exists ds,
    datasets_loop' rs ds0 w = (inr ds, world_built' rs w)
    /\ (forall r, r ∈ rs -> is_Some (ds !! knowledge_base_id r))
    /\ (forall k, is_Some (ds0 !! k) -> is_Some (ds !! k)).
Proof.
  revert ds0 w. induction rs as [|r rs IH]; intros ds0 w Hall.
  - exists ds0. split; [done|]. split; [|done].
    intros r Hr. by inversion Hr.
  - cbn [all_built] in Hall. apply andb_prop in Hall as [Hr Hrs].
    cbn [datasets_loop world_built]. unfold bind at 1.
    rewrite (execute_rag_ok _ _ _ _ r w Hr). simpl.
    unfold bind at 1, Dataset_from_dict.
    rewrite (built_data_same_lengths paired r w Hr). simpl.
    match goal with
    | |- context [datasets_loop _ _ _ _ rs ?m _] =>
        destruct (IH m _ Hrs) as (ds & Hloop & Hin & Hkeep)
    end.
    exists ds. split; [exact Hloop|]. split.
    + intros r' Hr'. apply elem_of_cons in Hr' as [->|Hr']; [|by apply Hin].
      apply Hkeep. rewrite lookup_insert_eq. eauto.
    + intros k Hk. apply Hkeep.
      destruct (decide (knowledge_base_id r = k)) as [->|Hne].
      * rewrite lookup_insert_eq. eauto.
      * by rewrite lookup_insert_ne.
Qed.

Lemma datasets_loop_raises
  (paired : length ground_truth = length raw_questions)
  (rs : list Retriever) (ds0 : gmap string Data) (w : World) :
  all_built' rs w = false ->
  exists e w', datasets_loop' rs ds0 w = (inl e, w')
               /\ (e = RetrievalError \/ e = GenerationError).
Proof.
  revert ds0 w. induction rs as [|r rs IH]; intros ds0 w Hall; [done|].
  cbn [all_built] in Hall. cbn [datasets_loop]. unfold bind at 1.
  destruct (all_answered' r questions' w) eqn:Hr.
  - rewrite (execute_rag_ok _ _ _ _ r w Hr). simpl.
    unfold bind at 1, Dataset_from_dict.
    rewrite (built_data_same_lengths paired r w Hr). simpl.
    apply IH. exact Hall.
  - destruct (execute_rag_raises _ _ _ ground_truth r w Hr)
      as (e & w' & -> & He).
    eauto.
Qed.

(** Every stored dataset has one row per question. *)
Lemma stored_rows_length
  (paired : length ground_truth = length raw_questions)
  (rs : list Retriever) (w : World) ds w' k d :
  datasets_loop' rs ∅ w = (inr ds, w') ->
  ds !! k = Some d ->
  length (dataset_rows d) = length raw_questions.
Proof.
  intros Hloop Hk.
  eapply (datasets_loop_inv _ _ _ _
            (fun d => length (dataset_rows d) = length raw_questions));
    [| |exact Hloop|exact Hk].
  - intros r w0 k0 d0 w1 _ Hrag.
    apply execute_rag_inr in Hrag as (Hall & _ & -> & _).
    unfold dataset_rows. simpl.
    pose proof (responses_length _ _ r _ w0 Hall) as Hn.
    assert (Hq : length questions' = length raw_questions)
      by (unfold questions; apply length_map).
    rewrite zip_rows_length; rewrite ?length_map; congruence.
  - intros k0 d0. by rewrite lookup_empty.
Qed.

(** The scores of the frame that Ragas returns: one per metric and row. *)
Lemma frame_cells_ragas (ds : Data) (ms : list Metric) (emb : Embeddings)
  (w : World) :
  frame_cells (ragas_frame ragas_score ds ms emb w)
  = m ← ms;
    imap (fun i row => (metric_name m, i, ragas_score emb m row w))
      (dataset_rows ds).
Proof.
  unfold frame_cells, ragas_frame. rewrite bind_app.
  match goal with
  | |- ?a ++ _ = _ =>
      replace a with (@nil (string * nat * option Qc)) by reflexivity
  end.
  rewrite app_nil_l.
  induction ms as [|m ms IH]; [done|].
  cbn [map]. rewrite !bind_cons, IH. f_equal.
  cbn [fst snd]. by rewrite imap_fmap.
Qed.

(** The datasets that the loop stores, and the world it leaves. *)
Lemma datasets_loop_inr_eq (rs : list Retriever) (ds0 : gmap string Data)
  (w : World) ds w' :
  datasets_loop' rs ds0 w = (inr ds, w') ->
  ds = built_datasets' rs ds0 w /\ w' = world_built' rs w.
Proof.
  revert ds0 w. induction rs as [|r rs IH]; intros ds0 w H.
  - by inversion H.
  - cbn [datasets_loop] in H.
    apply bind_inr_inv in H as ([k1 d1] & w1 & Hrag & H).
    apply bind_inr_inv in H as (d2 & w2 & Hfrom & H).
    apply execute_rag_inr in Hrag as (_ & -> & -> & ->).
    simpl in *. unfold Dataset_from_dict in Hfrom.
    destruct (same_lengths _); [|discriminate].
    inversion Hfrom; subst d2 w2; clear Hfrom.
    exact (IH _ _ H).
Qed.

Lemma built_datasets_preserve (rs : list Retriever) (ds0 : gmap string Data)
  (w : World) k :
  k ∉ map knowledge_base_id rs ->
  built_datasets' rs ds0 w !! k = ds0 !! k.
Proof.
  revert ds0 w. induction rs as [|r rs IH]; intros ds0 w Hk; [done|].
  simpl in Hk. apply not_elem_of_cons in Hk as [Hne Hk].
  cbn [built_datasets]. rewrite IH by done. by rewrite lookup_insert_ne.
Qed.

(** With distinct ids, each retriever finds under its id the dataset built
    from its own answers. *)
Lemma built_datasets_lookup (rs : list Retriever) (ds0 : gmap string Data)
  (w : World) i r :
  NoDup (map knowledge_base_id rs) ->
  rs !! i = Some r ->
  built_datasets' rs ds0 w !! knowledge_base_id r
  = Some (built_data' r (world_built' (take i rs) w)).
Proof.
  revert ds0 w i. induction rs as [|r0 rs IH]; intros ds0 w i Hnd Hi; [done|].
  simpl in Hnd. apply NoDup_cons in Hnd as [Hnotin Hnd].
  cbn [built_datasets]. destruct i as [|i]; simpl in Hi.
  - inversion Hi; subst r0. rewrite built_datasets_preserve by done.
    by rewrite lookup_insert_eq.
  - cbn [take world_built]. by apply IH.
Qed.

Lemma evaluate_kb_returns (kb : KnowledgeBase) (emb : Embeddings)
  (datasets : gmap string Data) (w : World) ds :
  datasets !! knowledgeBaseId kb = Some ds ->
  returns' ds metrics emb w = true ->
  evaluate_kb' kb emb datasets w
  = (inr (knowledgeBaseId kb, ragas_frame ragas_score ds metrics emb w),
     ragas_effect ds metrics emb w).
Proof.
  intros Hds Hr. unfold evaluate_kb, bind, ragas_evaluate.
  rewrite Hds. simpl. unfold evaluate_returns in Hr.
  destruct (null_typed ds); [discriminate|].
  by destruct (ragas_raises ds metrics emb w).
Qed.

Lemma evaluate_kb_raises (kb : KnowledgeBase) (emb : Embeddings)
  (datasets : gmap string Data) (w : World) ds :
  datasets !! knowledgeBaseId kb = Some ds ->
  returns' ds metrics emb w = false ->
  exists e w', evaluate_kb' kb emb datasets w = (inl e, w')
               /\ (e = ValueError \/ e = RagasError).
Proof.
  intros Hds Hr. unfold evaluate_kb, bind, ragas_evaluate.
  rewrite Hds. simpl. unfold evaluate_returns in Hr.
  destruct (null_typed ds); [eauto|].
  destruct (ragas_raises ds metrics emb w); [eauto | discriminate].
Qed.

Lemma calls_complete (datasets : gmap string Data) (i : nat)
  (ks : list KnowledgeBase) (w : World) :
  (forall kb, kb ∈ ks -> is_Some (datasets !! knowledgeBaseId kb)) ->
  i + length ks <= length bedrock_embeddings ->
  all_scored' datasets i ks w = true ->
  length (calls' datasets i ks w) = length ks.
Proof.
  revert i w. induction ks as [|kb ks IH]; intros i w Hin Hlen Hs; [done|].
  simpl in *.
  destruct (lookup_lt_is_Some_2 bedrock_embeddings i ltac:(lia)) as [emb He].
  rewrite He in *.
  destruct (Hin kb ltac:(by left)) as [ds Hds]. rewrite Hds in *.
  apply andb_prop in Hs as [Hr Hs]. rewrite Hr.
  simpl. f_equal. apply IH; [|lia|done].
  intros kb' Hkb'. apply Hin. by right.
Qed.

Lemma calls_kbs (datasets : gmap string Data) (i : nat)
  (ks : list KnowledgeBase) (w : World) :
  length (calls' datasets i ks w) = length ks ->
  map (fun c : KnowledgeBase * Embeddings * Data * World => c.1.1.1)
    (calls' datasets i ks w) = ks.
Proof.
  revert i w. induction ks as [|kb ks IH]; intros i w Hlen; [done|].
  simpl in *.
  destruct (bedrock_embeddings !! i) as [emb|]; [|done].
  destruct (datasets !! knowledgeBaseId kb) as [ds|]; [|done].
  destruct (returns' ds metrics emb w); [|done].
  simpl in *. f_equal. apply IH. lia.
Qed.

(** When the loop completes all its calls, every call returned and every
    knowledge base had an embeddings entry. *)
Lemma calls_scored (datasets : gmap string Data) (i : nat)
  (ks : list KnowledgeBase) (w : World) :
  length (calls' datasets i ks w) = length ks ->
  all_scored' datasets i ks w = true.
Proof.
  revert i w. induction ks as [|kb ks IH]; intros i w Hlen; [done|].
  simpl in *.
  destruct (bedrock_embeddings !! i) as [emb|] eqn:He; [|done].
  destruct (datasets !! knowledgeBaseId kb) as [ds|]; [|done].
  destruct (returns' ds metrics emb w); [|done].
  simpl in *. apply IH. lia.
Qed.

Lemma calls_embeddings (datasets : gmap string Data) (i : nat)
  (ks : list KnowledgeBase) (w : World) :
  length (calls' datasets i ks w) = length ks ->
  ks = [] \/ i + length ks <= length bedrock_embeddings.
Proof.
  revert i w. induction ks as [|kb ks IH]; intros i w Hlen; [by left|].
  right. simpl in *.
  destruct (bedrock_embeddings !! i) as [emb|] eqn:He; [|done].
  destruct (datasets !! knowledgeBaseId kb) as [ds|]; [|done].
  destruct (returns' ds metrics emb w); [|done].
  simpl in *. apply lookup_lt_Some in He. injection Hlen as Hlen.
  destruct (IH _ _ Hlen) as [->|Hle]; simpl; lia.
Qed.

Lemma calls_datasets (datasets : gmap string Data) (i : nat)
  (ks : list KnowledgeBase) (w : World) :
  length (calls' datasets i ks w) = length ks ->
  forall kb, kb ∈ ks -> is_Some (datasets !! knowledgeBaseId kb).
Proof.
  revert i w. induction ks as [|kb0 ks IH]; intros i w Hlen kb Hkb;
    [by inversion Hkb|].
  simpl in *.
  destruct (bedrock_embeddings !! i) as [emb|] eqn:He; [|done].
  destruct (datasets !! knowledgeBaseId kb0) as [ds|] eqn:Hd; [|done].
  destruct (returns' ds metrics emb w); [|done].
  simpl in *. injection Hlen as Hlen.
  apply elem_of_cons in Hkb as [->|Hkb]; [by rewrite Hd|].
  by eapply IH.
Qed.

Lemma calls_lookup (datasets : gmap string Data) (i : nat)
  (ks : list KnowledgeBase) (w : World) kb emb ds w0 :
  (kb, emb, ds, w0) ∈ calls' datasets i ks w ->
  datasets !! knowledgeBaseId kb = Some ds
  /\ exists j, bedrock_embeddings !! j = Some emb.
Proof.
  revert i w. induction ks as [|kb0 ks IH]; intros i w Hin;
    [by inversion Hin|].
  simpl in Hin.
  destruct (bedrock_embeddings !! i) as [emb0|] eqn:He; [|by inversion Hin].
  destruct (datasets !! knowledgeBaseId kb0) as [ds0|] eqn:Hd;
    [|by inversion Hin].
  destruct (returns' ds0 metrics emb0 w); [|by inversion Hin].
  apply elem_of_cons in Hin as [E|Hin].
  - inversion E; subst. eauto.
  - by eapply IH.
Qed.

(** The j-th call: its knowledge base, its embeddings, its dataset, and the
    world in which it is entered. *)
Lemma calls_nth (datasets : gmap string Data) (i : nat)
  (ks : list KnowledgeBase) (w : World) j kb emb d w0 :
  calls' datasets i ks w !! j = Some (kb, emb, d, w0) ->
  ks !! j = Some kb
  /\ bedrock_embeddings !! (i + j) = Some emb
  /\ datasets !! knowledgeBaseId kb = Some d
  /\ w0 = world_scored' datasets i (take j ks) w.
Proof.
  revert i w j. induction ks as [|kb0 ks IH]; intros i w j H; [done|].
  simpl in H.
  destruct (bedrock_embeddings !! i) as [emb0|] eqn:He; [|done].
  destruct (datasets !! knowledgeBaseId kb0) as [d0|] eqn:Hd; [|done].
  destruct (returns' d0 metrics emb0 w); [|done].
  destruct j as [|j]; simpl in H.
  - inversion H; subst. by rewrite Nat.add_0_r.
  - destruct (IH _ _ _ H) as (Hk & Hemb & Hds & Hw).
    split; [done|]. split; [by replace (i + S j) with (S i + j) by lia|].
    split; [done|]. cbn [take world_scored]. by rewrite He, Hd.
Qed.

(** One turn of the scoring loop. *)
Lemma dfs_loop_step (datasets : gmap string Data) (i : nat)
  (kb : KnowledgeBase) (ks : list KnowledgeBase) (dfs0 : PyDict.t DataFrame)
  (w : World) emb ds :
  bedrock_embeddings !! i = Some emb ->
  datasets !! knowledgeBaseId kb = Some ds ->
  returns' ds metrics emb w = true ->
  dfs_loop' datasets i (kb :: ks) dfs0 w
  = dfs_loop' datasets (S i) ks
      (PyDict.set (knowledgeBaseId kb)
         (ragas_frame ragas_score ds metrics emb w) dfs0)
      (ragas_effect ds metrics emb w).
Proof.
  intros He Hds Hr. cbn [dfs_loop]. unfold bind at 1. rewrite He.
  cbn [lookup_or_raise ret]. unfold bind at 1.
  by rewrite (evaluate_kb_returns kb emb datasets w ds Hds Hr).
Qed.

Lemma dfs_loop_step_raises (datasets : gmap string Data) (i : nat)
  (kb : KnowledgeBase) (ks : list KnowledgeBase) (dfs0 : PyDict.t DataFrame)
  (w : World) emb ds :
  bedrock_embeddings !! i = Some emb ->
  datasets !! knowledgeBaseId kb = Some ds ->
  returns' ds metrics emb w = false ->
  exists e w', dfs_loop' datasets i (kb :: ks) dfs0 w = (inl e, w')
               /\ (e = ValueError \/ e = RagasError).
Proof.
  intros He Hds Hr. cbn [dfs_loop]. unfold bind at 1. rewrite He.
  cbn [lookup_or_raise ret]. unfold bind at 1.
  destruct (evaluate_kb_raises kb emb datasets w ds Hds Hr)
    as (e & w' & Hk & He').
  rewrite Hk. by exists e, w'.
Qed.

Lemma dfs_loop_step_key_error (datasets : gmap string Data) (i : nat)
  (kb : KnowledgeBase) (ks : list KnowledgeBase) (dfs0 : PyDict.t DataFrame)
  (w : World) emb :
  bedrock_embeddings !! i = Some emb ->
  datasets !! knowledgeBaseId kb = None ->
  dfs_loop' datasets i (kb :: ks) dfs0 w
  = (inl (KeyError (knowledgeBaseId kb)), w).
Proof.
  intros He Hds. cbn [dfs_loop]. unfold bind at 1. rewrite He.
  cbn [lookup_or_raise ret]. unfold bind at 1, evaluate_kb, bind.
  by rewrite Hds.
Qed.

Lemma dfs_loop_step_index_error (datasets : gmap string Data) (i : nat)
  (kb : KnowledgeBase) (ks : list KnowledgeBase) (dfs0 : PyDict.t DataFrame)
  (w : World) :
  bedrock_embeddings !! i = None ->
  dfs_loop' datasets i (kb :: ks) dfs0 w = (inl IndexError, w).
Proof.
  intros He. cbn [dfs_loop]. unfold bind at 1. by rewrite He.
Qed.

(** The scoring loop either completes all its calls and returns the frames
    assigned in turn, or stops at a lookup or a call that raises. *)
Lemma dfs_loop_cases (datasets : gmap string Data) (i : nat)
  (ks : list KnowledgeBase) (dfs0 : PyDict.t DataFrame) (w : World) :
  (length (calls' datasets i ks w) = length ks
   /\ exists w',
        dfs_loop' datasets i ks dfs0 w
        = (inr (foldl (fun d kd => PyDict.set kd.1 kd.2 d) dfs0
                  (evaluations' datasets i ks w)), w'))
  \/ (length (calls' datasets i ks w) < length ks
      /\ exists e w', dfs_loop' datasets i ks dfs0 w = (inl e, w')
                      /\ (e = IndexError \/ (exists k, e = KeyError k)
                          \/ e = ValueError \/ e = RagasError)).
Proof.
  revert i dfs0 w. induction ks as [|kb ks IH]; intros i dfs0 w.
  - left. split; [done|]. by exists w.
  - unfold evaluations. cbn [evaluation_calls].
    destruct (bedrock_embeddings !! i) as [emb|] eqn:Hemb.
    + destruct (datasets !! knowledgeBaseId kb) as [ds|] eqn:Hds.
      * destruct (returns' ds metrics emb w) eqn:Hr.
        -- rewrite (dfs_loop_step datasets i kb ks dfs0 w emb ds Hemb Hds Hr).
           cbn [fst snd map length foldl].
           destruct (IH (S i)
                       (PyDict.set (knowledgeBaseId kb)
                          (ragas_frame ragas_score ds metrics emb w) dfs0)
                       (ragas_effect ds metrics emb w))
             as [[Hlen [w' Hloop]]|[Hlen (e & w' & Hloop & He)]].
           ++ left. split; [lia|]. exists w'. exact Hloop.
           ++ right. split; [lia|]. exists e, w'.
              split; [exact Hloop|exact He].
        -- destruct (dfs_loop_step_raises datasets i kb ks dfs0 w emb ds
                       Hemb Hds Hr) as (e & w' & Hk & He).
           right. cbn [length]. split; [lia|]. exists e, w'.
           split; [done|]. tauto.
      * right. cbn [length]. split; [lia|].
        exists (KeyError (knowledgeBaseId kb)), w.
        rewrite (dfs_loop_step_key_error datasets i kb ks dfs0 w emb Hemb Hds).
        split; [done|]. eauto.
    + right. cbn [length]. split; [lia|]. exists IndexError, w.
      rewrite (dfs_loop_step_index_error datasets i kb ks dfs0 w Hemb).
      split; [done|]. by left.
Qed.

(** With every lookup in place, a call that does not return ends the loop
    with what [evaluate] raised. *)
Lemma dfs_loop_scoring_error (datasets : gmap string Data) (i : nat)
  (ks : list KnowledgeBase) (dfs0 : PyDict.t DataFrame) (w : World) :
  (forall kb, kb ∈ ks -> is_Some (datasets !! knowledgeBaseId kb)) ->
  i + length ks <= length bedrock_embeddings ->
  all_scored' datasets i ks w = false ->
  exists e w', dfs_loop' datasets i ks dfs0 w = (inl e, w')
               /\ (e = ValueError \/ e = RagasError).
Proof.
  revert i dfs0 w. induction ks as [|kb ks IH]; intros i dfs0 w Hin Hlen Hs;
    [done|].
  simpl in Hlen, Hs.
  destruct (lookup_lt_is_Some_2 bedrock_embeddings i ltac:(lia)) as [emb He].
  rewrite He in Hs.
  destruct (Hin kb ltac:(by left)) as [ds Hds]. rewrite Hds in Hs.
  destruct (returns' ds metrics emb w) eqn:Hr.
  - rewrite (dfs_loop_step datasets i kb ks _ w emb ds He Hds Hr).
    apply IH; [|lia|done].
    intros kb' Hkb'. apply Hin. by right.
  - exact (dfs_loop_step_raises datasets i kb ks dfs0 w emb ds He Hds Hr).
Qed.

Lemma score_cells_cons (kd : string * DataFrame) (table : PyDict.t DataFrame) :
  score_cells (kd :: table)
  = map (fun c => (kd.1, c.1.2, c.1.1, c.2)) (frame_cells kd.2)
    ++ score_cells table.
Proof. unfold score_cells, PyDict.items. by rewrite bind_cons. Qed.

(** The cells of the frames returned by a sequence of calls. *)
Lemma score_cells_evaluations (datasets : gmap string Data) (i : nat)
  (ks : list KnowledgeBase) (w : World) :
  score_cells (evaluations' datasets i ks w)
  = c ← calls' datasets i ks w;
    m ← metrics;
    imap (fun j row =>
            (knowledgeBaseId c.1.1.1, j, metric_name m,
             ragas_score c.1.1.2 m row c.2))
      (dataset_rows c.1.2).
Proof.
  unfold evaluations.
  induction (calls' datasets i ks w) as [|[[[kb emb] ds] w0] cs IH]; [done|].
  cbn [map]. rewrite score_cells_cons, bind_cons, IH. f_equal.
  cbn [fst snd]. rewrite frame_cells_ragas. clear.
  induction metrics as [|m ms IHm]; [done|].
  rewrite !bind_cons, map_app, IHm. f_equal.
  apply (fmap_imap (fun j row => (metric_name m, j, ragas_score emb m row w0))).
Qed.

Local Abbreviation triples' := (triples raw_questions kbs metrics).

Lemma triples_length :
  length triples' = length raw_questions * length kbs * length metrics.
Proof.
  unfold triples.
  rewrite (length_bind_const _ kbs (length metrics * length raw_questions)).
  - lia.
  - intros kb _. apply length_bind_const.
    intros m _. by rewrite length_fmap, length_seq.
Qed.

Lemma triples_NoDup :
  NoDup (map knowledgeBaseId kbs) -> NoDup metrics -> NoDup triples'.
Proof.
  intros Hkbs Hms. unfold triples. apply NoDup_bind.
  - intros kb1 kb2 y H1 H2 Hy1 Hy2.
    apply list_elem_of_bind in Hy1 as (m1 & Hy1 & _).
    apply list_elem_of_bind in Hy2 as (m2 & Hy2 & _).
    apply list_elem_of_fmap in Hy1 as (i1 & -> & _).
    apply list_elem_of_fmap in Hy2 as (i2 & E & _).
    inversion E. by eapply (NoDup_fmap_eq knowledgeBaseId kbs).
  - intros kb _. apply NoDup_bind; [| |done].
    + intros m1 m2 y _ _ Hy1 Hy2.
      apply list_elem_of_fmap in Hy1 as (i1 & -> & _).
      apply list_elem_of_fmap in Hy2 as (i2 & E & _).
      inversion E. by apply metric_name_inj.
    + intros m _. apply NoDup_fmap_2_strong; [|apply NoDup_seq].
      intros i1 i2 _ _ E. by inversion E.
  - by eapply NoDup_fmap_1.
Qed.

(** The keys of the cells scored by a sequence of calls whose datasets have
    [n] rows each. *)
Lemma keys_of_calls (cs : list (KnowledgeBase * Embeddings * Data * World))
  (n : nat) :
  (forall c, c ∈ cs -> length (dataset_rows c.1.2) = n) ->
  map cell_key
    (c ← cs; m ← metrics;
     imap (fun j row =>
             (knowledgeBaseId c.1.1.1, j, metric_name m,
              ragas_score c.1.1.2 m row c.2))
       (dataset_rows c.1.2))
  = kb ← map (fun c : KnowledgeBase * Embeddings * Data * World => c.1.1.1) cs;
    m ← metrics;
    (fun i => (knowledgeBaseId kb, i, metric_name m)) <$> seq 0 n.
Proof.
  induction cs as [|c cs IH]; intros Hn; [done|].
  cbn [map]. rewrite !bind_cons, map_app, IH
    by (intros c' Hc'; apply Hn; by right).
  f_equal. rewrite <- (Hn c) by (by left). clear.
  induction metrics as [|m ms IHm]; [done|].
  rewrite !bind_cons, map_app, IHm. f_equal.
  rewrite <- imap_seq_0.
  apply (fmap_imap (fun j row => (knowledgeBaseId c.1.1.1, j, metric_name m,
                                  ragas_score c.1.1.2 m row c.2))).
Qed.

Lemma retrievers_ids (ks : list KnowledgeBase) :
  map knowledge_base_id (retrievers ks) = map knowledgeBaseId ks.
Proof. unfold retrievers. rewrite map_map. done. Qed.

Lemma retrievers_take (ks : list KnowledgeBase) (i : nat) :
  take i (retrievers ks) = retrievers (take i ks).
Proof. unfold retrievers. symmetry. apply fmap_take. Qed.

Lemma retrievers_lookup (ks : list KnowledgeBase) (i : nat) kb r :
  ks !! i = Some kb ->
  retrievers ks !! i = Some r ->
  knowledge_base_id r = knowledgeBaseId kb /\ numberOfResults r = 5.
Proof.
  intros Hk Hr. unfold retrievers in Hr.
  change (map ?f ks) with (f <$> ks) in Hr.
  rewrite list_lookup_fmap, Hk in Hr. by inversion Hr.
Qed.

(** A run of the first cell in which every record is built stores
    [built_datasets]. *)
Lemma datasets_loop_built
  (paired : length ground_truth = length raw_questions)
  (rs : list Retriever) (ds0 : gmap string Data) (w : World) :
  all_built' rs w = true ->
  datasets_loop' rs ds0 w
  = (inr (built_datasets' rs ds0 w), world_built' rs w).
Proof.
  intros Hall.
  destruct (datasets_loop_ok paired rs ds0 w Hall) as (ds & Hloop & _).
  destruct (datasets_loop_inr_eq _ _ _ _ _ Hloop) as [<- _]. exact Hloop.
Qed.

(** With distinct ids, the dataset found under the id of the i-th knowledge
    base is the one built from the answers of the i-th retriever. *)
Lemma built_datasets_kbs (w : World) i kb r :
  NoDup (map knowledgeBaseId kbs) ->
  kbs !! i = Some kb ->
  retrievers kbs !! i = Some r ->
  built_datasets' (retrievers kbs) ∅ w !! knowledgeBaseId kb
  = Some (built_data' r (world_built' (take i (retrievers kbs)) w)).
Proof.
  intros Hnd Hk Hr.
  destruct (retrievers_lookup kbs i kb r Hk Hr) as [<- _].
  apply built_datasets_lookup; [|done]. by rewrite retrievers_ids.
Qed.

Lemma built_datasets_present (w : World) kb :
  NoDup (map knowledgeBaseId kbs) ->
  kb ∈ kbs ->
  is_Some (built_datasets' (retrievers kbs) ∅ w !! knowledgeBaseId kb).
Proof.
  intros Hnd Hkb. apply list_elem_of_lookup in Hkb as [i Hk].
  destruct (lookup_lt_is_Some_2 (retrievers kbs) i) as [r Hr].
  { unfold retrievers. rewrite length_map. by eapply lookup_lt_Some. }
  rewrite (built_datasets_kbs w i kb r Hnd Hk Hr). eauto.
Qed.

(** What a run returns in which every record is built and every call of
    [evaluate] returns: the frames of the calls, one per knowledge base, in
    the order of [kbs]. *)
Lemma run_evaluation_ok
  (paired : length ground_truth = length raw_questions) (w : World) :
  length kbs <= length bedrock_embeddings ->
  NoDup (map knowledgeBaseId kbs) ->
  all_built' (retrievers kbs) w = true ->
  run_scored' w = true ->
  exists w',
    run' w
    = (inr (evaluations' (built_datasets' (retrievers kbs) ∅ w) 0 kbs
              (world_built' (retrievers kbs) w)), w')
    /\ length (calls' (built_datasets' (retrievers kbs) ∅ w) 0 kbs
                 (world_built' (retrievers kbs) w)) = length kbs.
Proof.
  intros Hemb Hnd Hall Hs.
  pose proof (datasets_loop_built paired (retrievers kbs) ∅ w Hall) as Hloop.
  assert (Hlen : length (calls' (built_datasets' (retrievers kbs) ∅ w) 0 kbs
                           (world_built' (retrievers kbs) w))
                 = length kbs).
  { apply calls_complete; [|lia|exact Hs].
    intros kb Hkb. by apply built_datasets_present. }
  pose proof (calls_kbs _ 0 kbs _ Hlen) as Hkbs.
  destruct (dfs_loop_cases (built_datasets' (retrievers kbs) ∅ w) 0 kbs []
              (world_built' (retrievers kbs) w))
    as [[_ [w' Hdfs]]|[Hlt _]]; [|lia].
  exists w'. split; [|done].
  unfold run_evaluation, bind. rewrite Hloop, Hdfs.
  rewrite foldl_set_fresh; [done|].
  simpl. unfold evaluations. rewrite map_map.
  rewrite <- Hkbs, map_map in Hnd.
  erewrite map_ext; [exact Hnd|]. by intros [[[kb emb] d] w0].
Qed.

(** A run in which every record is built and a call of [evaluate] does not
    return ends with what [evaluate] raised. *)
Lemma run_evaluation_scoring_error
  (paired : length ground_truth = length raw_questions) (w : World) :
  length kbs <= length bedrock_embeddings ->
  NoDup (map knowledgeBaseId kbs) ->
  all_built' (retrievers kbs) w = true ->
  run_scored' w = false ->
  exists e w', run' w = (inl e, w') /\ (e = ValueError \/ e = RagasError).
Proof.
  intros Hemb Hnd Hall Hs.
  pose proof (datasets_loop_built paired (retrievers kbs) ∅ w Hall) as Hloop.
  unfold run_evaluation, bind. rewrite Hloop.
  apply dfs_loop_scoring_error; [|lia|exact Hs].
  intros kb Hkb. by apply built_datasets_present.
Qed.

(** The keys of the cells of such a run are the (backend, row, metric)
    triples. *)
Lemma run_evaluation_cell_keys
  (paired : length ground_truth = length raw_questions) (w : World) :
  all_built' (retrievers kbs) w = true ->
  length (calls' (built_datasets' (retrievers kbs) ∅ w) 0 kbs
            (world_built' (retrievers kbs) w)) = length kbs ->
  map cell_key
    (score_cells
       (evaluations' (built_datasets' (retrievers kbs) ∅ w) 0 kbs
          (world_built' (retrievers kbs) w)))
  = triples'.
Proof.
  intros Hall Hlen.
  pose proof (datasets_loop_built paired (retrievers kbs) ∅ w Hall) as Hloop.
  rewrite score_cells_evaluations.
  rewrite (keys_of_calls _ (length raw_questions)).
  - by rewrite (calls_kbs _ 0 kbs _ Hlen).
  - intros [[[kb emb] d] w0] Hc. simpl.
    apply calls_lookup in Hc as [Hd _].
    by eapply (stored_rows_length paired).
Qed.

(** C1, as the code has it. With questions and ground truths in equal
    number, an embeddings entry for every knowledge base, knowledge bases of
    distinct ids and distinct metrics: a run in which every record is built
    and every call of [evaluate] returns gives a table whose cells are keyed
    by exactly the (backend, row, metric) triples, each once, [|Q|*|B|*|M|]
    cells in all; a run in which some record fails to build, or in which a
    call of [evaluate] raises, raises and returns no table, hence no cell.
    The number of cells depends on the outcomes of the builds and on those
    of the calls of [evaluate]. *)
Theorem run_one_cell_per_triple (w : World) :
  length ground_truth = length raw_questions ->
  length kbs <= length bedrock_embeddings ->
  NoDup (map knowledgeBaseId kbs) ->
  NoDup metrics ->
  (all_built' (retrievers kbs) w = true ->
   run_scored' w = true ->
   exists table w',
     run' w = (inr table, w')
     /\ map cell_key (score_cells table) = triples'
     /\ NoDup (map cell_key (score_cells table))
     /\ length (score_cells table)
        = length raw_questions * length kbs * length metrics)
  /\ (all_built' (retrievers kbs) w = false
      \/ (all_built' (retrievers kbs) w = true /\ run_scored' w = false) ->
      exists e w', run' w = (inl e, w')).
Proof.
  intros paired Hemb Hnd Hms. split.
  - intros Hall Hs.
    destruct (run_evaluation_ok paired w Hemb Hnd Hall Hs) as (w' & Hrun & Hlen).
    pose proof (run_evaluation_cell_keys paired w Hall Hlen) as Hkeys.
    eexists _, w'. split; [exact Hrun|].
    split; [exact Hkeys|]. split.
    + rewrite Hkeys. by apply triples_NoDup.
    + rewrite <- triples_length, <- Hkeys. by rewrite length_map.
  - intros [Hall|[Hall Hs]].
    + destruct (datasets_loop_raises paired (retrievers kbs) ∅ w Hall)
        as (e & w' & Hloop & _).
      exists e, w'. unfold run_evaluation, bind. by rewrite Hloop.
    + destruct (run_evaluation_scoring_error paired w Hemb Hnd Hall Hs)
        as (e & w' & Hrun & _).
      by exists e, w'.
Qed.

(** C2, as the code has it. With questions and ground truths in equal
    number, an embeddings entry for every knowledge base and knowledge bases
    of distinct ids. A record that fails to build is not captured: the
    retrieval or generation error reaches the caller and the run returns no
    table. Nor is what [evaluate] raises captured: when every record is built
    and a call of [evaluate] raises, the error reaches the caller and the run
    returns no table. When every record is built and every call of
    [evaluate] returns, the run returns a table whose cells are keyed by
    exactly the (backend, row, metric) triples; the cell of the i-th
    knowledge base, row j and metric m holds what the scorer returned, a
    value or NaN, for that metric on row j of the dataset built from the
    answers of the i-th retriever, with the i-th embeddings, in the world
    left by the calls for the knowledge bases before it. Nothing counts the
    cells that hold NaN, and nothing is raised when all of them do. *)
Theorem run_raises_or_scores (w : World) :
  length ground_truth = length raw_questions ->
  length kbs <= length bedrock_embeddings ->
  NoDup (map knowledgeBaseId kbs) ->
  (all_built' (retrievers kbs) w = false ->
   exists e w', run' w = (inl e, w')
                /\ (e = RetrievalError \/ e = GenerationError))
  /\ (all_built' (retrievers kbs) w = true ->
      run_scored' w = false ->
      exists e w', run' w = (inl e, w')
                   /\ (e = ValueError \/ e = RagasError))
  /\ (all_built' (retrievers kbs) w = true ->
      run_scored' w = true ->
      exists table w',
        run' w = (inr table, w')
        /\ map cell_key (score_cells table) = triples'
        /\ forall i kb r emb m j row,
             kbs !! i = Some kb ->
             retrievers kbs !! i = Some r ->
             bedrock_embeddings !! i = Some emb ->
             m ∈ metrics ->
             dataset_rows
               (built_data' r (world_built' (take i (retrievers kbs)) w))
               !! j = Some row ->
             (knowledgeBaseId kb, j, metric_name m,
              ragas_score emb m row
                (world_scored' (built_datasets' (retrievers kbs) ∅ w) 0
                   (take i kbs) (world_built' (retrievers kbs) w)))
               ∈ score_cells table).
Proof.
  intros paired Hemb Hnd. split; [|split].
  - intros Hall.
    destruct (datasets_loop_raises paired (retrievers kbs) ∅ w Hall)
      as (e & w' & Hloop & He).
    exists e, w'. split; [|done].
    unfold run_evaluation, bind. by rewrite Hloop.
  - intros Hall Hs.
    exact (run_evaluation_scoring_error paired w Hemb Hnd Hall Hs).
  - intros Hall Hs.
    destruct (run_evaluation_ok paired w Hemb Hnd Hall Hs) as (w' & Hrun & Hlen).
    eexists _, w'. split; [exact Hrun|].
    split; [exact (run_evaluation_cell_keys paired w Hall Hlen)|].
    intros i kb r emb m j row Hk Hr He Hm Hrow.
    destruct (lookup_lt_is_Some_2
                (calls' (built_datasets' (retrievers kbs) ∅ w) 0 kbs
                   (world_built' (retrievers kbs) w)) i)
      as [[[[kb0 emb0] d0] w0] Hc].
    { rewrite Hlen. by eapply lookup_lt_Some. }
    destruct (calls_nth _ _ _ _ _ _ _ _ _ Hc) as (Hk0 & He0 & Hd0 & Hw0).
    simpl in He0.
    rewrite Hk in Hk0. inversion Hk0; subst kb0.
    rewrite He in He0. inversion He0; subst emb0.
    rewrite (built_datasets_kbs w i kb r Hnd Hk Hr) in Hd0.
    inversion Hd0; subst d0. subst w0.
    rewrite score_cells_evaluations.
    apply list_elem_of_bind. eexists. split; [|eapply list_elem_of_lookup_2, Hc].
    apply list_elem_of_bind. exists m. split; [|done].
    simpl.
    apply (elem_of_lookup_imap_2
             (fun j0 row0 =>
                (knowledgeBaseId kb, j0, metric_name m,
                 ragas_score emb m row0
                   (world_scored' (built_datasets' (retrievers kbs) ∅ w) 0
                      (take i kbs) (world_built' (retrievers kbs) w))))
             _ row j Hrow).
Qed.

(** The keys of a returned table are the ids of the knowledge bases, in the
    order of [kbs]. *)
Lemma run_evaluation_keys (w : World) table w' :
  NoDup (map knowledgeBaseId kbs) ->
  run' w = (inr table, w') ->
  PyDict.keys table = map knowledgeBaseId kbs.
Proof.
  intros Hnd Hrun. unfold run_evaluation in Hrun.
  apply bind_inr_inv in Hrun as (ds & w1 & _ & Hdfs).
  destruct (dfs_loop_cases ds 0 kbs [] w1)
    as [[Hlen [w2 Hloop]]|[_ (e & w2 & Hloop & _)]];
    rewrite Hloop in Hdfs; [|discriminate].
  inversion Hdfs; subst table w2; clear Hdfs.
  pose proof (calls_kbs ds 0 kbs _ Hlen) as Hkbs.
  assert (Hkeys : map fst (evaluations' ds 0 kbs w1) = map knowledgeBaseId kbs).
  { unfold evaluations. rewrite map_map. rewrite <- Hkbs at 2.
    rewrite map_map. apply map_ext. by intros [[[kb emb] d] w0]. }
  rewrite foldl_set_fresh; [exact Hkeys|].
  simpl. by rewrite Hkeys.
Qed.

Lemma numeric_col_not_text (c : string) :
  c ∈ numeric_cols ->
  c <> "question" /\ c <> "answer" /\ c <> "contexts" /\ c <> "ground_truth".
Proof.
  intros H. unfold numeric_cols in H.
  repeat (apply elem_of_cons in H as [->|H]; [by repeat split|]).
  by inversion H.
Qed.

(** The frame that Ragas returns holds a column of floats under the name of
    every metric. *)
Lemma ragas_frame_has_numeric (ds : Data) (emb : Embeddings) (w : World)
  (c : string) :
  c ∈ numeric_cols -> c ∈ map metric_name metrics ->
  has_numeric (ragas_frame ragas_score ds metrics emb w) c = true.
Proof.
  intros Hc Hm.
  destruct (numeric_col_not_text c Hc) as (H1 & H2 & H3 & H4).
  unfold has_numeric, column, ragas_frame. cbn [app PyDict.get].
  rewrite !decide_False by done.
  clear -Hm. induction metrics as [|m ms IH]; [by inversion Hm|].
  cbn [map PyDict.get] in *.
  destruct (decide (metric_name m = c)) as [E|Hne]; [done|].
  apply IH. apply elem_of_cons in Hm as [E|Hm]; [congruence | done].
Qed.

Lemma run_table_scored (w : World) table w' :
  NoDup (map knowledgeBaseId kbs) ->
  covers_numeric_cols metrics = true ->
  run' w = (inr table, w') ->
  scored_table table = true.
Proof.
  intros Hnd Hcov Hrun. unfold run_evaluation in Hrun.
  apply bind_inr_inv in Hrun as (ds & w1 & _ & Hdfs).
  destruct (dfs_loop_cases ds 0 kbs [] w1)
    as [[Hlen [w2 Hloop]]|[_ (e & w2 & Hloop & _)]];
    rewrite Hloop in Hdfs; [|discriminate].
  inversion Hdfs; subst table w2; clear Hdfs.
  pose proof (calls_kbs ds 0 kbs _ Hlen) as Hkbs.
  assert (Hkeys : map fst (evaluations' ds 0 kbs w1) = map knowledgeBaseId kbs).
  { unfold evaluations. rewrite map_map. rewrite <- Hkbs at 2.
    rewrite map_map. apply map_ext. by intros [[[kb emb] d] w0]. }
  rewrite foldl_set_fresh by (simpl; by rewrite Hkeys).
  simpl. unfold scored_table, evaluations.
  apply forallb_forall. intros [key df] Hin.
  apply in_map_iff in Hin as ([[[kb emb] d] w0] & E & _).
  inversion E; subst key df; clear E. cbn [snd].
  apply forallb_forall. intros c Hc.
  apply ragas_frame_has_numeric; [by apply list_elem_of_In|].
  unfold covers_numeric_cols in Hcov.
  rewrite forallb_forall in Hcov.
  apply (bool_decide_eq_true_1 _). by apply Hcov.
Qed.

Lemma imap_fst_label {A B} (f : nat -> A -> B) (l : list A) :
  map fst (imap (fun j c => (c, f j c)) l) = l.
Proof.
  apply list_eq. intros i.
  rewrite list_lookup_fmap, list_lookup_imap.
  by destruct (l !! i).
Qed.

(** C7, as the code has it. The comparison view does not rank. From the
    table of a run whose metrics give every numeric column, the averaging
    cell returns a view with one entry per metric, and for every metric it
    lists the backends in the order in which the knowledge bases are
    registered in [kbs], whatever their means. Backends with equal means are
    therefore in registration order, on every invocation. *)
Theorem comparison_view_registration_order (w : World) table w' :
  NoDup (map knowledgeBaseId kbs) ->
  covers_numeric_cols metrics = true ->
  run' w = (inr table, w') ->
  exists mf,
    summarize kbs table = inr mf
    /\ map fst (plot_df1 mf) = numeric_cols
    /\ forall c bars,
         (c, bars) ∈ plot_df1 mf ->
         map fst bars = map (fun kb => display_names !! kb_name kb) kbs.
Proof.
  intros Hnd Hcov Hrun.
  destruct (summarize_returns kbs table (run_table_scored w table w' Hnd Hcov Hrun))
    as [mf Hsum].
  exists mf. split; [done|].
  pose proof (run_evaluation_keys w table w' Hnd Hrun) as Hkeys.
  destruct (summarize_index kbs table mf Hsum) as (Hidx & Hcols & Hvals).
  split.
  - unfold plot_df1, transpose. rewrite imap_fst_label. simpl.
    by rewrite Hcols.
  - intros c bars Hin.
    unfold plot_df1, transpose in Hin.
    apply elem_of_lookup_imap_1 in Hin as (j & c0 & E & _).
    inversion E; subst c bars; clear E. simpl.
    rewrite zip_with_fst_label.
    + rewrite Hidx, Hkeys, map_map. apply map_ext_in.
      intros kb Hkb. f_equal. apply kb_name_of_registered; [done|].
      by apply list_elem_of_In.
    + rewrite length_map, Hvals, Hidx, length_map.
      unfold PyDict.keys. by rewrite length_map.
Qed.

End RunFacts.

Lemma run_one_cell_per_triple_witness :
  exists table w',
    run_evaluation Sample.retrieve_two Sample.generate_ok Sample.score_45
      Sample.effect_tick Sample.no_raise Sample.raw_questions Sample.ground_truth Sample.kbs
      Sample.bedrock_embeddings Sample.metrics 0 = (inr table, w')
    /\ length (score_cells table) = 3 * 2 * 6.
Proof.
  destruct (run_one_cell_per_triple Sample.retrieve_two Sample.generate_ok
              Sample.score_45 Sample.effect_tick Sample.no_raise Sample.raw_questions
              Sample.ground_truth Sample.kbs Sample.bedrock_embeddings
              Sample.metrics 0 eq_refl) as [H _].
  - simpl. lia.
  - apply (bool_decide_unpack _). by vm_compute.
  - apply (bool_decide_unpack _). by vm_compute.
  - destruct (H eq_refl eq_refl) as (table & w' & Hrun & _ & _ & Hlen). eauto.
Defined.

(** C1, as stated, fails: with a retriever that finds no chunk, every record
    of both knowledge bases is built, yet the first call of [evaluate]
    raises on the all-empty contexts column and the run returns no table,
    hence none of the 36 cells. *)
Lemma all_records_built_no_cells :
  all_built Sample.retrieve_nothing Sample.generate_ok Sample.raw_questions
    (retrievers Sample.kbs) 0 = true
  /\ run_evaluation Sample.retrieve_nothing Sample.generate_ok
       Sample.score_45 Sample.effect_tick Sample.no_raise
       Sample.raw_questions Sample.ground_truth Sample.kbs
       Sample.bedrock_embeddings Sample.metrics 0 = (inl ValueError, 12).
Proof. split; reflexivity. Qed.

Lemma run_raises_or_scores_witness :
  exists table w',
    Sample.run Sample.score_by_model = (inr table, w')
    /\ ("KBCOHERE01", 2, "answer_correctness", Some (Q2Qc (9 # 10)))
         ∈ score_cells table.
Proof.
  destruct (run_raises_or_scores Sample.retrieve_two Sample.generate_ok
              Sample.score_by_model Sample.effect_tick Sample.no_raise
              Sample.raw_questions Sample.ground_truth Sample.kbs
              Sample.bedrock_embeddings Sample.metrics 0 eq_refl)
    as (_ & _ & H).
  - simpl. lia.
  - apply (bool_decide_unpack _). by vm_compute.
  - destruct (H eq_refl eq_refl) as (table & w' & Hrun & _ & Hcell).
    exists table, w'. split; [exact Hrun|].
    refine (Hcell 1 Sample.cohere_embed_knowledge_base _ _ answer_correctness
              2 _ eq_refl eq_refl eq_refl _ eq_refl).
    by repeat constructor.
Defined.

(** C2, as stated, fails: with a retriever that raises for the second
    knowledge base only, the run does not complete. The error reaches the
    caller and no table is returned, although the three records of the first
    knowledge base were built. *)
Lemma build_error_reaches_caller :
  all_answered Sample.retrieve_cohere_down Sample.generate_ok
    {| knowledge_base_id := "KBTITAN001"; numberOfResults := 5 |}
    (questions Sample.raw_questions) 0 = true
  /\ run_evaluation Sample.retrieve_cohere_down Sample.generate_ok
       Sample.score_45 Sample.effect_tick Sample.no_raise Sample.raw_questions
       Sample.ground_truth Sample.kbs Sample.bedrock_embeddings
       Sample.metrics 0 = (inl RetrievalError, 7).
Proof. split; reflexivity. Qed.

Lemma comparison_view_registration_order_witness :
  exists mf,
    summarize Sample.kbs (Sample.table_of Sample.score_by_model) = inr mf
    /\ forall c bars,
         (c, bars) ∈ plot_df1 mf ->
         map fst bars
         = [Some "Amazon Titan Embedding"; Some "Cohere English Embedding"].
Proof.
  destruct (comparison_view_registration_order Sample.retrieve_two
              Sample.generate_ok Sample.score_by_model Sample.effect_tick Sample.no_raise
              Sample.raw_questions Sample.ground_truth Sample.kbs
              Sample.bedrock_embeddings Sample.metrics 0
              (Sample.table_of Sample.score_by_model) 14)
    as (mf & Hsum & _ & Hbars).
  - apply (bool_decide_unpack _). by vm_compute.
  - reflexivity.
  - reflexivity.
  - exists mf. split; [exact Hsum | exact Hbars].
Defined.

(** A run in which no cell can be scored still returns its table: 36 cells,
    all NaN, and no error. *)
Example all_cells_failed_still_returns :
  exists table w',
    run_evaluation Sample.retrieve_two Sample.generate_ok Sample.score_none
      Sample.effect_tick Sample.no_raise Sample.raw_questions Sample.ground_truth Sample.kbs
      Sample.bedrock_embeddings Sample.metrics 0 = (inr table, w')
    /\ length (score_cells table) = 36
    /\ Forall (fun c => c.2 = None) (score_cells table).
Proof.
  eexists _, _. split; [reflexivity|]. split; [reflexivity|].
  apply (bool_decide_unpack _). by vm_compute.
Qed.

(** An exception that [evaluate] lets through for the second knowledge base
    reaches the caller: no table is returned, and the frame already scored
    for the first knowledge base is lost with it. *)
Example evaluate_error_reaches_caller :
  all_built Sample.retrieve_two Sample.generate_ok Sample.raw_questions
    (retrievers Sample.kbs) 0 = true
  /\ run_evaluation Sample.retrieve_two Sample.generate_ok Sample.score_45
       Sample.effect_tick Sample.raise_for_cohere Sample.raw_questions
       Sample.ground_truth Sample.kbs Sample.bedrock_embeddings
       Sample.metrics 0 = (inl RagasError, 14).
Proof. split; reflexivity. Qed.

(** C7, as stated, fails: in a run of the notebook in which the backend
    registered second scores higher, the view still lists it second, so the
    bars of answer_relevancy are not in descending order of mean. *)
Lemma view_not_ranked_by_mean :
  ~ (forall score table w' mf c bars,
       Sample.run score = (inr table, w') ->
       summarize Sample.kbs table = inr mf ->
       (c, bars) ∈ plot_df1 mf ->
       ranked_by_mean bars).
Proof.
  intros H.
  assert (R : Sample.run Sample.score_by_model
              = (inr (Sample.table_of Sample.score_by_model), 14))
    by reflexivity.
  destruct (summarize Sample.kbs (Sample.table_of Sample.score_by_model))
    as [e|mf] eqn:Hs.
  - revert Hs. apply (bool_decide_unpack _). by vm_compute.
  - assert (Hview :
      plot_df1 mf !! 0
      = Some ("answer_relevancy",
              [(Some "Amazon Titan Embedding", Some (Q2Qc (1 # 5)));
               (Some "Cohere English Embedding", Some (Q2Qc (9 # 10)))])).
    { assert (Hall :
        match summarize Sample.kbs (Sample.table_of Sample.score_by_model) with
        | inl _ => false
        | inr mf0 =>
            bool_decide
              (plot_df1 mf0 !! 0
               = Some ("answer_relevancy",
                       [(Some "Amazon Titan Embedding", Some (Q2Qc (1 # 5)));
                        (Some "Cohere English Embedding",
                         Some (Q2Qc (9 # 10)))]))
        end = true) by (vm_compute; reflexivity).
      rewrite Hs in Hall. by apply bool_decide_eq_true in Hall. }
    apply list_elem_of_lookup_2 in Hview.
    pose proof (H _ _ _ mf _ _ R Hs Hview 0 _ _ _ _ eq_refl eq_refl) as Hle.
    vm_compute in Hle. by apply Hle.
Qed.

(** * Further properties of the notebook *)

(** ** Dictionaries: assignment and lookup *)

Lemma PyDict_get_set_eq {V} (k : string) (v : V) (d : PyDict.t V) :
  PyDict.get k (PyDict.set k v d) = Some v.
Proof.
  induction d as [|[k' v'] d IH]; simpl.
  - by rewrite decide_True.
  - destruct (decide (k' = k)) as [->|Hne]; simpl.
    + by rewrite decide_True.
    + by rewrite decide_False.
Qed.

Lemma PyDict_get_set_ne {V} (k k' : string) (v : V) (d : PyDict.t V) :
  k <> k' -> PyDict.get k' (PyDict.set k v d) = PyDict.get k' d.
Proof.
  intros Hne. induction d as [|[k0 v0] d IH]; simpl.
  - by rewrite decide_False.
  - destruct (decide (k0 = k)) as [->|Hne0]; simpl.
    + by rewrite !decide_False.
    + destruct (decide (k0 = k')); [done | exact IH].
Qed.

Lemma PyDict_keys_set {V} (k k' : string) (v : V) (d : PyDict.t V) :
  k' ∈ PyDict.keys (PyDict.set k v d) <-> k' = k \/ k' ∈ PyDict.keys d.
Proof.
  unfold PyDict.keys. induction d as [|[k0 v0] d IH]; simpl.
  - rewrite list_elem_of_singleton. split; [auto | intros [?|H]; [done | by inversion H]].
  - destruct (decide (k0 = k)) as [->|Hne]; simpl.
    + rewrite elem_of_cons. tauto.
    + rewrite !elem_of_cons, IH. tauto.
Qed.

Lemma PyDict_keys_set_NoDup {V} (k : string) (v : V) (d : PyDict.t V) :
  NoDup (PyDict.keys d) -> NoDup (PyDict.keys (PyDict.set k v d)).
Proof.
  unfold PyDict.keys. induction d as [|[k0 v0] d IH]; simpl; intros Hnd.
  - apply NoDup_singleton.
  - apply NoDup_cons in Hnd as [Hnotin Hnd].
    destruct (decide (k0 = k)) as [->|Hne]; simpl.
    + by apply NoDup_cons.
    + apply NoDup_cons. split; [|by apply IH].
      intros Hin. apply (PyDict_keys_set k k0 v d) in Hin as [?|Hin]; done.
Qed.

Lemma PyDict_set_length {V} (k : string) (v : V) (d : PyDict.t V) :
  length d <= length (PyDict.set k v d) <= S (length d).
Proof.
  induction d as [|[k0 v0] d IH]; simpl; [lia|].
  destruct (decide (k0 = k)); simpl; lia.
Qed.

Lemma PyDict_set_Forall {V} (P : V -> Prop) (k : string) (v : V)
  (d : PyDict.t V) :
  Forall (fun kd => P kd.2) d -> P v ->
  Forall (fun kd => P kd.2) (PyDict.set k v d).
Proof.
  intros Hd Hv. induction Hd as [|[k0 v0] d H0 Hd IH]; simpl.
  - by constructor.
  - destruct (decide (k0 = k)); by constructor.
Qed.

Lemma foldl_set_Forall {V} (P : V -> Prop) (l : list (string * V))
  (d0 : PyDict.t V) :
  Forall (fun kd => P kd.2) d0 -> Forall (fun kd => P kd.2) l ->
  Forall (fun kd => P kd.2) (foldl (fun d kd => PyDict.set kd.1 kd.2 d) d0 l).
Proof.
  intros Hd0 Hl. revert d0 Hd0.
  induction Hl as [|[k v] l Hv Hl IH]; intros d0 Hd0; [done|].
  simpl. apply IH. by apply PyDict_set_Forall.
Qed.

(** A run of assignments: the keys stay distinct, they are the old keys and
    the assigned ones, and a key reads what was assigned to it last. *)
Lemma foldl_set_keys {V} (l : list (string * V)) (d0 : PyDict.t V) :
  NoDup (PyDict.keys d0) ->
  NoDup (PyDict.keys (foldl (fun d kd => PyDict.set kd.1 kd.2 d) d0 l))
  /\ (forall k,
        k ∈ PyDict.keys (foldl (fun d kd => PyDict.set kd.1 kd.2 d) d0 l)
        <-> k ∈ PyDict.keys d0 \/ k ∈ map fst l)
  /\ length (foldl (fun d kd => PyDict.set kd.1 kd.2 d) d0 l)
     <= length d0 + length l.
Proof.
  revert d0. induction l as [|[k v] l IH]; intros d0 Hnd; simpl.
  - split; [done|]. split; [|lia].
    intros k. split; [auto | intros [?|H]; [done | by inversion H]].
  - destruct (IH (PyDict.set k v d0) (PyDict_keys_set_NoDup k v d0 Hnd))
      as (H1 & H2 & H3).
    split; [done|]. split.
    + intros k'. rewrite H2, PyDict_keys_set, elem_of_cons. tauto.
    + pose proof (PyDict_set_length k v d0). lia.
Qed.

Lemma foldl_set_get_notin {V} (l : list (string * V)) (d0 : PyDict.t V) k :
  k ∉ map fst l ->
  PyDict.get k (foldl (fun d kd => PyDict.set kd.1 kd.2 d) d0 l)
  = PyDict.get k d0.
Proof.
  revert d0. induction l as [|[k0 v0] l IH]; intros d0 Hk; [done|].
  simpl in *. apply not_elem_of_cons in Hk as [Hne Hk].
  rewrite IH by done. by apply PyDict_get_set_ne.
Qed.

Lemma foldl_set_get_last {V} (l : list (string * V)) (d0 : PyDict.t V)
  i k v :
  l !! i = Some (k, v) ->
  (forall j kv, i < j -> l !! j = Some kv -> kv.1 <> k) ->
  PyDict.get k (foldl (fun d kd => PyDict.set kd.1 kd.2 d) d0 l) = Some v.
Proof.
  revert d0 i. induction l as [|[k0 v0] l IH]; intros d0 i Hi Hlast; [done|].
  destruct i as [|i]; simpl in *.
  - inversion Hi; subst k0 v0.
    rewrite foldl_set_get_notin; [apply PyDict_get_set_eq|].
    intros Hin. apply list_elem_of_fmap in Hin as ([k' v'] & E & Hin).
    simpl in E. subst k'.
    apply list_elem_of_lookup in Hin as [j Hj].
    by apply (Hlast (S j) (k, v') ltac:(lia) Hj).
  - apply (IH _ i Hi). intros j kv Hj Hkv.
    apply (Hlast (S j) kv ltac:(lia) Hkv).
Qed.

(** ** Errors and edge cases of the run *)

Lemma forallb_false_elem {A} (f : A -> bool) (l : list A) :
  forallb f l = false -> exists x, x ∈ l /\ f x = false.
Proof.
  induction l as [|x l IH]; simpl; [discriminate|].
  destruct (f x) eqn:E; simpl.
  - intros H. destruct (IH H) as (y & Hy & Hf). exists y. split; [by right|done].
  - intros _. exists x. split; [by left|done].
Qed.

Lemma kb_name_of_unknown (kbs : list KnowledgeBase) (key : string) :
  key ∉ map knowledgeBaseId kbs -> kb_name_of kbs key = "Unknown".
Proof.
  induction kbs as [|kb kbs IH]; simpl; intros H; [done|].
  apply not_elem_of_cons in H as [Hne H].
  rewrite decide_False by done. by apply IH.
Qed.

Section FurtherFacts.
Context {World : Type}.
Variable retrieve : Retriever -> string -> World -> option (list Document) * World.
Variable generate : list Document -> string -> World -> option string * World.
Variable ragas_score : Embeddings -> Metric -> Row -> World -> option Qc.
Variable ragas_effect : Data -> list Metric -> Embeddings -> World -> World.
Variable ragas_raises : Data -> list Metric -> Embeddings -> World -> bool.
Variable raw_questions : list string.
Variable ground_truth : list string.
Variable kbs : list KnowledgeBase.
Variable bedrock_embeddings : list Embeddings.
Variable metrics : list Metric.

Local Abbreviation questions' := (questions raw_questions).
Local Abbreviation invoke := (qa_chain_invoke retrieve generate).
Local Abbreviation responses' := (responses retrieve generate).
Local Abbreviation all_answered' := (all_answered retrieve generate).
Local Abbreviation world_after' := (world_after retrieve generate).
Local Abbreviation execute_rag' :=
  (execute_rag retrieve generate raw_questions ground_truth).
Local Abbreviation datasets_loop' :=
  (datasets_loop retrieve generate raw_questions ground_truth).
Local Abbreviation all_built' := (all_built retrieve generate raw_questions).
Local Abbreviation world_built' :=
  (world_built retrieve generate raw_questions).
Local Abbreviation dfs_loop' :=
  (dfs_loop ragas_score ragas_effect ragas_raises bedrock_embeddings metrics).
Local Abbreviation calls' :=
  (evaluation_calls ragas_effect ragas_raises bedrock_embeddings metrics).
Local Abbreviation evaluations' :=
  (evaluations ragas_score ragas_effect ragas_raises bedrock_embeddings metrics).
Local Abbreviation run' :=
  (run_evaluation retrieve generate ragas_score ragas_effect ragas_raises raw_questions
     ground_truth kbs bedrock_embeddings metrics).
Local Abbreviation retriever_of :=
  (fun kb => {| knowledge_base_id := knowledgeBaseId kb;
                numberOfResults := 5 |}).
Local Abbreviation all_scored' :=
  (all_scored ragas_effect ragas_raises bedrock_embeddings metrics).
Local Abbreviation run_scored' :=
  (run_scored retrieve generate ragas_effect ragas_raises raw_questions
     ground_truth kbs bedrock_embeddings metrics).

Lemma dfs_loop_index_error (datasets : gmap string Data) (i : nat)
  (ks : list KnowledgeBase) (dfs0 : PyDict.t DataFrame) (w : World) :
  (forall kb, kb ∈ ks -> is_Some (datasets !! knowledgeBaseId kb)) ->
  i <= length bedrock_embeddings ->
  length bedrock_embeddings < i + length ks ->
  all_scored' datasets i ks w = true ->
  exists w', dfs_loop' datasets i ks dfs0 w = (inl IndexError, w').
Proof.
  revert i dfs0 w.
  induction ks as [|kb ks IH]; intros i dfs0 w Hin Hi Hlen Hs.
  - simpl in Hlen. lia.
  - destruct (bedrock_embeddings !! i) as [emb|] eqn:He.
    + pose proof (lookup_lt_Some _ _ _ He) as Hlt.
      destruct (Hin kb ltac:(by left)) as [ds Hds].
      simpl in Hs. rewrite He, Hds in Hs.
      apply andb_prop in Hs as [Hr Hs].
      rewrite (dfs_loop_step _ _ _ _ _ datasets i kb ks dfs0 w emb ds
                 He Hds Hr).
      apply IH; [|lia|simpl in Hlen; lia|exact Hs].
      intros kb' Hkb'. apply Hin. by right.
    + exists w. by apply dfs_loop_step_index_error.
Qed.

(** X1. With as many ground truths as questions: when there are fewer
    embeddings than knowledge bases, every record is built, and every call of
    [evaluate] made for the knowledge bases that have an embeddings entry
    returns, the run raises [IndexError] from [bedrock_embeddings[i]] and
    returns no table: the answers that were generated, and the scores, are
    lost. *)
Theorem run_too_few_embeddings (w : World) :
  length ground_truth = length raw_questions ->
  all_built' (retrievers kbs) w = true ->
  run_scored' w = true ->
  length bedrock_embeddings < length kbs ->
  exists w', run' w = (inl IndexError, w').
Proof.
  intros paired Hall Hs Hlen.
  destruct (datasets_loop_ok _ _ _ _ paired (retrievers kbs) ∅ w Hall)
    as (ds & Hloop & Hin & _).
  destruct (datasets_loop_inr_eq _ _ _ _ _ _ _ _ _ Hloop) as [-> _].
  destruct (dfs_loop_index_error
              (built_datasets retrieve generate raw_questions ground_truth
                 (retrievers kbs) ∅ w) 0 kbs []
              (world_built' (retrievers kbs) w)) as [w' Hdfs].
  - intros kb Hkb. apply (Hin (retriever_of kb)).
    unfold retrievers. apply list_elem_of_fmap. by exists kb.
  - lia.
  - lia.
  - exact Hs.
  - exists w'. unfold run_evaluation, bind. by rewrite Hloop.
Qed.

(** X2. [execute_rag] does not compare the number of ground truths with the
    number of questions: with a different number it still asks every
    question and returns the lists as they are. The mismatch is only met by
    [Dataset.from_dict], so the run raises after the first retriever has
    answered all the questions. *)
Theorem run_mismatched_ground_truth (kb : KnowledgeBase)
  (kbs0 : list KnowledgeBase) (w : World) :
  kbs = kb :: kbs0 ->
  length ground_truth <> length raw_questions ->
  all_answered' (retriever_of kb) questions' w = true ->
  (exists data,
     execute_rag' (retriever_of kb) w
     = (inr (knowledgeBaseId kb, data),
        world_after' (retriever_of kb) questions' w)
     /\ length (col_answer data) = length raw_questions
     /\ col_ground_truth data = ground_truth)
  /\ run' w = (inl ArrowInvalid, world_after' (retriever_of kb) questions' w).
Proof.
  intros Hkbs Hne Hall.
  pose proof (execute_rag_ok retrieve generate raw_questions ground_truth
                (retriever_of kb) w Hall) as Hrag.
  pose proof (responses_length _ _ (retriever_of kb) _ w Hall) as Hn.
  assert (Hq : length questions' = length raw_questions)
    by (unfold questions; apply length_map).
  split.
  - eexists. split; [exact Hrag|]. simpl.
    split; [|done]. by rewrite length_map, Hn.
  - unfold run_evaluation, bind, retrievers. rewrite Hkbs.
    cbn [map datasets_loop]. unfold bind at 1. rewrite Hrag. simpl.
    unfold bind at 1, Dataset_from_dict, same_lengths. simpl.
    rewrite !length_map, Hn, Hq, !Nat.eqb_refl. simpl.
    destruct (Nat.eqb_spec (length ground_truth) (length raw_questions));
      [done|]. reflexivity.
Qed.

(** *** Which dataset and which embeddings a knowledge base is scored with *)

Lemma datasets_loop_preserve (rs : list Retriever) (ds0 : gmap string Data)
  (w : World) ds w' k :
  k ∉ map knowledge_base_id rs ->
  datasets_loop' rs ds0 w = (inr ds, w') ->
  ds !! k = ds0 !! k.
Proof.
  revert ds0 w. induction rs as [|r rs IH]; intros ds0 w Hk H.
  - by inversion H.
  - cbn [datasets_loop] in H. simpl in Hk.
    apply not_elem_of_cons in Hk as [Hne Hk].
    apply bind_inr_inv in H as ([k1 d1] & w1 & Hrag & H).
    apply bind_inr_inv in H as (d2 & w2 & Hfrom & H).
    apply execute_rag_inr in Hrag as (_ & -> & _ & _).
    simpl in *. rewrite (IH _ _ Hk H). by rewrite lookup_insert_ne.
Qed.

Lemma datasets_loop_lookup (rs : list Retriever) (ds0 : gmap string Data)
  (w : World) ds w' :
  NoDup (map knowledge_base_id rs) ->
  datasets_loop' rs ds0 w = (inr ds, w') ->
  forall i r,
    rs !! i = Some r ->
    exists data,
      ds !! knowledge_base_id r = Some data
      /\ execute_rag' r (world_built' (take i rs) w)
         = (inr (knowledge_base_id r, data),
            world_built' (take (S i) rs) w).
Proof.
  revert ds0 w. induction rs as [|r0 rs IH]; intros ds0 w Hnd H i r Hi;
    [done|].
  cbn [datasets_loop] in H. simpl in Hnd.
  apply NoDup_cons in Hnd as [Hnotin Hnd].
  apply bind_inr_inv in H as ([k1 d1] & w1 & Hrag & H).
  apply bind_inr_inv in H as (d2 & w2 & Hfrom & H).
  simpl in *. unfold Dataset_from_dict in Hfrom.
  destruct (same_lengths d1); [|discriminate].
  inversion Hfrom; subst d2 w2; clear Hfrom.
  pose proof Hrag as Hrag'.
  apply execute_rag_inr in Hrag' as (_ & -> & _ & ->).
  destruct i as [|i]; simpl in Hi.
  - inversion Hi; subst r0. exists d1. split.
    + rewrite (datasets_loop_preserve _ _ _ _ _ _ Hnotin H).
      by rewrite lookup_insert_eq.
    + exact Hrag.
  - apply (IH _ _ Hnd H i r Hi).
Qed.

(** What a returned table is made of, whatever the ids are. *)
Lemma run_evaluation_inr (w : World) table w' :
  run' w = (inr table, w') ->
  exists ds w1,
    datasets_loop' (retrievers kbs) ∅ w = (inr ds, w1)
    /\ length (calls' ds 0 kbs w1) = length kbs
    /\ table = foldl (fun d kd => PyDict.set kd.1 kd.2 d) []
                 (evaluations' ds 0 kbs w1)
    /\ map fst (evaluations' ds 0 kbs w1) = map knowledgeBaseId kbs.
Proof.
  intros Hrun. unfold run_evaluation in Hrun.
  apply bind_inr_inv in Hrun as (ds & w1 & Hloop & Hdfs).
  destruct (dfs_loop_cases ragas_score ragas_effect ragas_raises bedrock_embeddings
              metrics ds 0 kbs [] w1)
    as [[Hlen [w2 Hdfs']]|[_ (e & w2 & Hdfs' & _)]];
    rewrite Hdfs' in Hdfs; [|discriminate].
  inversion Hdfs; subst table w2; clear Hdfs.
  exists ds, w1. split; [done|]. split; [done|]. split; [done|].
  pose proof (calls_kbs ragas_effect ragas_raises bedrock_embeddings metrics ds 0 kbs _ Hlen)
    as Hkbs.
  unfold evaluations. rewrite map_map. rewrite <- Hkbs at 2.
  rewrite map_map. apply map_ext. by intros [[[kb emb] d] w0].
Qed.

(** X3. With knowledge bases of distinct ids, the frame that the table holds
    for the i-th knowledge base was scored on the dataset that
    [execute_rag] built with that knowledge base's own retriever, after the
    retrievers before it, and with the i-th entry of [bedrock_embeddings]. *)
Theorem each_kb_scored_on_own_answers (w : World) table w' :
  NoDup (map knowledgeBaseId kbs) ->
  run' w = (inr table, w') ->
  forall i kb,
    kbs !! i = Some kb ->
    exists emb data w0,
      bedrock_embeddings !! i = Some emb
      /\ execute_rag' (retriever_of kb)
           (world_built' (take i (retrievers kbs)) w)
         = (inr (knowledgeBaseId kb, data),
            world_built' (take (S i) (retrievers kbs)) w)
      /\ PyDict.get (knowledgeBaseId kb) table
         = Some (ragas_frame ragas_score data metrics emb w0).
Proof.
  intros Hnd Hrun i kb Hi.
  destruct (run_evaluation_inr w table w' Hrun)
    as (ds & w1 & Hloop & Hlen & -> & Hkeys).
  assert (Hc : is_Some (calls' ds 0 kbs w1 !! i)).
  { apply lookup_lt_is_Some_2. rewrite Hlen. by eapply lookup_lt_Some. }
  destruct Hc as [[[[kb' emb] d] w0] Hc].
  destruct (calls_nth _ _ _ _ ds 0 kbs w1 i kb' emb d w0 Hc)
      as (Hkb' & Hemb & Hd & _).
  rewrite Hi in Hkb'. inversion Hkb'; subst kb'; clear Hkb'.
  assert (Hr : retrievers kbs !! i = Some (retriever_of kb)).
  { unfold retrievers. by rewrite list_lookup_fmap, Hi. }
  assert (Hndr : NoDup (map knowledge_base_id (retrievers kbs))).
  { unfold retrievers. rewrite map_map. simpl. exact Hnd. }
  destruct (datasets_loop_lookup _ _ _ _ _ Hndr Hloop i _ Hr)
    as (data & Hdata & Hrag).
  simpl in Hdata. rewrite Hd in Hdata. inversion Hdata; subst data.
  exists emb, d, w0. split; [exact Hemb|]. split; [exact Hrag|].
  rewrite foldl_set_fresh by (simpl; by rewrite Hkeys).
  simpl. apply (get_at_position _ i).
  - by rewrite Hkeys.
  - unfold evaluations. by rewrite list_lookup_fmap, Hc.
Qed.

(** X4. The table is keyed by knowledge base id, so knowledge bases that
    share an id share one frame: the keys of the table are the ids of
    [kbs] without repetition, the table is never longer than [kbs], and the
    frame under an id is the one scored for the last knowledge base that
    carries it, with the embeddings at that position. *)
Theorem run_table_keyed_by_id (w : World) table w' :
  run' w = (inr table, w') ->
  NoDup (PyDict.keys table)
  /\ (forall k, k ∈ PyDict.keys table <-> k ∈ map knowledgeBaseId kbs)
  /\ length table <= length kbs
  /\ forall i kb,
       kbs !! i = Some kb ->
       (forall j kb', i < j -> kbs !! j = Some kb' ->
                      knowledgeBaseId kb' <> knowledgeBaseId kb) ->
       exists emb d w0,
         bedrock_embeddings !! i = Some emb
         /\ PyDict.get (knowledgeBaseId kb) table
            = Some (ragas_frame ragas_score d metrics emb w0).
Proof.
  intros Hrun.
  destruct (run_evaluation_inr w table w' Hrun)
    as (ds & w1 & Hloop & Hlen & -> & Hkeys).
  destruct (foldl_set_keys (evaluations' ds 0 kbs w1) [])
    as (Hnd & Hmem & Hlength); [constructor|].
  split; [exact Hnd|]. split; [|split].
  - intros k. rewrite Hmem, Hkeys. simpl. split; [|auto].
    intros [H|H]; [by inversion H | done].
  - simpl in Hlength. unfold evaluations in Hlength.
    rewrite length_map, Hlen in Hlength. exact Hlength.
  - intros i kb Hi Hlast.
    assert (Hc : is_Some (calls' ds 0 kbs w1 !! i)).
    { apply lookup_lt_is_Some_2. rewrite Hlen. by eapply lookup_lt_Some. }
    destruct Hc as [[[[kb' emb] d] w0] Hc].
    destruct (calls_nth _ _ _ _ ds 0 kbs w1 i kb' emb d w0 Hc)
      as (Hkb' & Hemb & Hd & _).
    rewrite Hi in Hkb'. inversion Hkb'; subst kb'; clear Hkb'.
    exists emb, d, w0. split; [exact Hemb|].
    apply (foldl_set_get_last _ _ i).
    + unfold evaluations. by rewrite list_lookup_fmap, Hc.
    + intros j [k v] Hj Hkv. simpl.
      assert (Hkj : map fst (evaluations' ds 0 kbs w1) !! j = Some k)
        by (by rewrite list_lookup_fmap, Hkv).
      rewrite Hkeys, list_lookup_fmap in Hkj.
      destruct (kbs !! j) as [kb'|] eqn:Hkbj; [|done].
      simpl in Hkj. inversion Hkj; subst k. by eapply Hlast.
Qed.

(** *** The metrics and the averaging cell *)

Lemma column_ragas_frame_missing (ds : Data) (emb : Embeddings) (w : World)
  (c : string) :
  c ∈ numeric_cols -> c ∉ map metric_name metrics ->
  column c (ragas_frame ragas_score ds metrics emb w) = None.
Proof.
  intros Hc Hm.
  destruct (numeric_col_not_text c Hc) as (H1 & H2 & H3 & H4).
  unfold column, ragas_frame. cbn [app PyDict.get].
  rewrite !decide_False by done.
  clear -Hm. induction metrics as [|m ms IH]; [done|].
  cbn [map PyDict.get] in *.
  apply not_elem_of_cons in Hm as [Hne Hm].
  rewrite decide_False by done. by apply IH.
Qed.

Lemma column_ragas_frame_length (ds : Data) (emb : Embeddings) (w : World)
  (c : string) l :
  column c (ragas_frame ragas_score ds metrics emb w) = Some (NumCol l) ->
  length l = length (dataset_rows ds).
Proof.
  unfold column, ragas_frame. cbn [app PyDict.get].
  repeat (destruct (decide (_ = c)); [discriminate|]).
  induction metrics as [|m ms IH]; [done|].
  cbn [map PyDict.get].
  destruct (decide (metric_name m = c)); [|exact IH].
  intros E. inversion E. by rewrite length_map.
Qed.

Lemma select_ragas_key_error (ds : Data) (emb : Embeddings) (w : World)
  (cols : list string) :
  (forall c, c ∈ cols -> c ∈ numeric_cols) ->
  (exists c, c ∈ cols /\ c ∉ map metric_name metrics) ->
  exists k,
    select cols (ragas_frame ragas_score ds metrics emb w) = inl (KeyError k)
    /\ k ∈ cols /\ k ∉ map metric_name metrics.
Proof.
  induction cols as [|c cols IH]; intros Hnum (c0 & Hc0 & Hmiss).
  - by inversion Hc0.
  - cbn [select].
    destruct (decide (c ∈ map metric_name metrics)) as [Hin|Hout].
    + pose proof (ragas_frame_has_numeric ragas_score metrics ds emb w c
                    (Hnum c ltac:(by left)) Hin) as Hhas.
      unfold has_numeric in Hhas.
      destruct (column c (ragas_frame ragas_score ds metrics emb w))
        as [[l|l|l]|]; try discriminate.
      destruct IH as (k & -> & Hk & Hkm).
      * intros c' Hc'. apply Hnum. by right.
      * exists c0. split; [|done].
        apply elem_of_cons in Hc0 as [->|Hc0]; done.
      * exists k. split; [done|]. split; [by right | done].
    + rewrite (column_ragas_frame_missing ds emb w c
                 (Hnum c ltac:(by left)) Hout).
      exists c. split; [done|]. split; [by left | done].
Qed.

(** X5. The averaging cell depends on the list of metrics: when [metrics]
    lacks a metric that [numeric_cols] names, then on the table of any run
    with at least one knowledge base [df[numeric_cols]] raises [KeyError] for
    such a column, and no summary is produced. *)
Theorem summarize_needs_every_metric (w : World) table w' :
  run' w = (inr table, w') ->
  kbs <> [] ->
  covers_numeric_cols metrics = false ->
  exists k,
    summarize kbs table = inl (KeyError k)
    /\ k ∈ numeric_cols /\ k ∉ map metric_name metrics.
Proof.
  intros Hrun Hne Hcov.
  destruct (run_evaluation_inr w table w' Hrun)
    as (ds & w1 & Hloop & Hlen & -> & Hkeys).
  set (is_frame := fun df : DataFrame =>
         exists d emb w0, df = ragas_frame ragas_score d metrics emb w0).
  assert (Hframes : Forall (fun kd => is_frame kd.2)
            (foldl (fun d kd => PyDict.set kd.1 kd.2 d) []
               (evaluations' ds 0 kbs w1))).
  { apply (foldl_set_Forall is_frame); [constructor|].
    unfold evaluations. apply Forall_fmap, Forall_forall.
    intros [[[kb emb] d] w0] _. simpl. by exists d, emb, w0. }
  destruct (foldl_set_keys (evaluations' ds 0 kbs w1) [])
    as (_ & Hmem & _); [constructor|].
  destruct (foldl (fun d kd => PyDict.set kd.1 kd.2 d) []
              (evaluations' ds 0 kbs w1)) as [|[key df] table] eqn:Htable.
  - exfalso. destruct kbs as [|kb kbs0]; [done|].
    assert (Hin : knowledgeBaseId kb ∈ PyDict.keys (@nil (string * DataFrame))).
    { apply Hmem. right. rewrite Hkeys. by left. }
    by inversion Hin.
  - apply Forall_cons in Hframes as [(d & emb & w0 & Hdf) _].
    simpl in Hdf. subst df.
    destruct (forallb_false_elem _ _ Hcov) as (c & Hc & Hf).
    apply bool_decide_eq_false_1 in Hf.
    destruct (select_ragas_key_error d emb w0 numeric_cols) as (k & Hsel & Hk).
    + done.
    + by exists c.
    + exists k. split; [|exact Hk].
      unfold summarize, PyDict.items. cbn [means_loop]. by rewrite Hsel.
Qed.

Lemma all_built_no_questions (rs : list Retriever) (w : World) :
  raw_questions = [] ->
  all_built' rs w = true /\ world_built' rs w = w.
Proof.
  intros Hq. induction rs as [|r rs [IH1 IH2]]; [done|].
  cbn [all_built world_built]. unfold questions. rewrite Hq. simpl.
  unfold questions in IH1, IH2. rewrite Hq in IH1, IH2. simpl in IH1, IH2.
  by rewrite IH1, IH2.
Qed.

(** A dataset whose columns fail the type check ends the scoring loop at
    its knowledge base, before any scorer is called. *)
Lemma dfs_loop_step_null (datasets : gmap string Data) (i : nat)
  (kb : KnowledgeBase) (ks : list KnowledgeBase) (dfs0 : PyDict.t DataFrame)
  (w : World) emb ds :
  bedrock_embeddings !! i = Some emb ->
  datasets !! knowledgeBaseId kb = Some ds ->
  null_typed ds = true ->
  dfs_loop' datasets i (kb :: ks) dfs0 w = (inl ValueError, w).
Proof.
  intros He Hds Hnull. cbn [dfs_loop]. unfold bind at 1. rewrite He.
  cbn [lookup_or_raise ret]. unfold bind at 1, evaluate_kb, bind at 1.
  rewrite Hds. cbn [lookup_or_raise ret]. unfold bind, ragas_evaluate.
  by rewrite Hnull.
Qed.

(** Every stored dataset holds the prefixed questions. *)
Lemma stored_questions (rs : list Retriever) (w : World) ds w' k d :
  datasets_loop' rs ∅ w = (inr ds, w') ->
  ds !! k = Some d ->
  col_question d = questions'.
Proof.
  intros Hloop Hk.
  eapply (datasets_loop_inv _ _ _ _ (fun d => col_question d = questions'));
    [| |exact Hloop|exact Hk].
  - intros r w0 k0 d0 w1 _ Hrag.
    by apply execute_rag_inr in Hrag as (_ & _ & -> & _).
  - intros k0 d0. by rewrite lookup_empty.
Qed.

(** X7. With no question and no ground truth the ports of the QA chain are
    never called and every (empty) record is built; with no knowledge base
    the run returns an empty table; with a knowledge base and an embeddings
    entry for it, the first call of [evaluate] raises [ValueError] on the
    dataset without rows, in the world in which the run started, and the run
    returns no table. *)
Theorem no_questions_raises (w : World) :
  raw_questions = [] ->
  ground_truth = [] ->
  all_built' (retrievers kbs) w = true
  /\ world_built' (retrievers kbs) w = w
  /\ (kbs = [] -> run' w = (inr [], w))
  /\ (kbs <> [] -> bedrock_embeddings <> [] -> run' w = (inl ValueError, w)).
Proof.
  intros Hq Hg.
  assert (paired : length ground_truth = length raw_questions)
    by (by rewrite Hq, Hg).
  destruct (all_built_no_questions (retrievers kbs) w Hq) as [Hall Hw].
  split; [exact Hall|]. split; [exact Hw|]. split.
  - intros Hnil. unfold run_evaluation, retrievers. by rewrite Hnil.
  - intros Hkbs Hemb.
    destruct (datasets_loop_ok _ _ _ _ paired (retrievers kbs) ∅ w Hall)
      as (ds & Hloop & Hin & _).
    rewrite Hw in Hloop.
    unfold run_evaluation, bind. rewrite Hloop.
    destruct kbs as [|kb kbs0] eqn:Ekbs; [done|].
    destruct bedrock_embeddings as [|emb embs] eqn:Eemb; [done|].
    rewrite <- Ekbs in Hloop, Hin. rewrite <- Eemb.
    destruct (Hin (retriever_of kb)) as [d Hd].
    { rewrite Ekbs. unfold retrievers. simpl. by left. }
    simpl in Hd.
    apply (dfs_loop_step_null ds 0 kb kbs0 [] w emb d);
      [by rewrite Eemb|exact Hd|].
    unfold null_typed.
    rewrite (stored_questions _ _ _ _ _ _ Hloop Hd).
    unfold questions. by rewrite Hq.
Qed.

(** Each response in the list was returned by a call of the chain. *)
Lemma responses_elem (r : Retriever) (qs : list string) (w : World) resp :
  resp ∈ responses' r qs w ->
  exists q w0 w1, invoke r q w0 = (inr resp, w1).
Proof.
  revert w. induction qs as [|q qs IH]; intros w H; [by inversion H|].
  cbn [responses] in H.
  destruct (invoke r q w) as [[e|resp0] w1] eqn:Hinv; [by inversion H|].
  apply elem_of_cons in H as [->|H]; [eauto|].
  by eapply IH.
Qed.

(** With a retriever that finds no chunk, every stored dataset has only
    empty contexts lists. *)
Lemma stored_contexts_empty (rs : list Retriever) (w : World) ds w' k d :
  (forall r q w0 docs w1, retrieve r q w0 = (Some docs, w1) -> docs = []) ->
  datasets_loop' rs ∅ w = (inr ds, w') ->
  ds !! k = Some d ->
  forallb (fun c : list string => bool_decide (c = [])) (col_contexts d)
  = true.
Proof.
  intros Hnone Hloop Hk.
  eapply (datasets_loop_inv _ _ _ _
            (fun d => forallb (fun c : list string => bool_decide (c = []))
                        (col_contexts d) = true));
    [| |exact Hloop|exact Hk].
  - intros r w0 k0 d0 w1 _ Hrag.
    apply execute_rag_inr in Hrag as (_ & _ & -> & _). simpl.
    apply forallb_forall. intros c Hc.
    apply in_map_iff in Hc as (resp & <- & Hresp).
    apply list_elem_of_In in Hresp.
    destruct (responses_elem _ _ _ _ Hresp) as (q & w2 & w3 & Hinv).
    apply qa_chain_invoke_inr in Hinv as (w4 & Hret & _).
    apply bool_decide_eq_true_2. unfold contexts_of.
    by rewrite (Hnone _ _ _ _ _ Hret).
  - intros k0 d0. by rewrite lookup_empty.
Qed.

(** X14. With as many ground truths as questions, a knowledge base and an
    embeddings entry for it: when the retriever never finds a chunk and
    every record is built all the same, the first call of [evaluate] raises
    [ValueError] on the contexts column, in the world left by the building
    of the datasets; the run returns no table and the answers are lost. *)
Theorem run_without_chunks (w : World) :
  length ground_truth = length raw_questions ->
  (forall r q w0 docs w1, retrieve r q w0 = (Some docs, w1) -> docs = []) ->
  kbs <> [] ->
  bedrock_embeddings <> [] ->
  all_built' (retrievers kbs) w = true ->
  run' w = (inl ValueError, world_built' (retrievers kbs) w).
Proof.
  intros paired Hnone Hkbs Hemb Hall.
  destruct (datasets_loop_ok _ _ _ _ paired (retrievers kbs) ∅ w Hall)
    as (ds & Hloop & Hin & _).
  unfold run_evaluation, bind. rewrite Hloop.
  destruct kbs as [|kb kbs0] eqn:Ekbs; [done|].
  destruct bedrock_embeddings as [|emb embs] eqn:Eemb; [done|].
  rewrite <- Ekbs in Hloop, Hin. rewrite <- Eemb.
  destruct (Hin (retriever_of kb)) as [d Hd].
  { rewrite Ekbs. unfold retrievers. simpl. by left. }
  simpl in Hd.
  apply (dfs_loop_step_null ds 0 kb kbs0 [] _ emb d);
    [by rewrite Eemb|exact Hd|].
  unfold null_typed.
  rewrite (stored_contexts_empty _ _ _ _ _ _ Hnone Hloop Hd).
  apply orb_true_r.
Qed.

(** X8. The retriever is asked the question with the instruction in front of
    it, not the question as written; and the contexts stored beside an
    answer are the text of exactly the documents from which that answer was
    generated. *)
Theorem retrieval_sees_prefixed_question (r : Retriever) (w : World)
  kb_id data w' :
  execute_rag' r w = (inr (kb_id, data), w') ->
  forall i a ctx,
    col_answer data !! i = Some a ->
    col_contexts data !! i = Some ctx ->
    exists raw w0 docs w1 w2,
      raw_questions !! i = Some raw
      /\ retrieve r (prefix +:+ raw) w0 = (Some docs, w1)
      /\ generate docs (prefix +:+ raw) w1 = (Some a, w2)
      /\ ctx = map page_content docs.
Proof.
  intros Hrag i a ctx Ha Hctx.
  apply execute_rag_inr in Hrag as (Hall & _ & -> & _). simpl in *.
  rewrite list_lookup_fmap in Ha. rewrite list_lookup_fmap in Hctx.
  destruct (responses' r questions' w !! i) as [resp|] eqn:Hresp; [|done].
  simpl in *. inversion Ha; subst a. inversion Hctx; subst ctx.
  assert (Hi : i < length questions').
  { rewrite <- (responses_length _ _ r _ w Hall). by eapply lookup_lt_Some. }
  destruct (lookup_lt_is_Some_2 _ _ Hi) as [q Hq].
  destruct (responses_lookup _ _ r _ w i q Hall Hq)
    as (resp' & wi & Hinv & Hresp').
  rewrite Hresp in Hresp'. inversion Hresp'; subst resp'.
  apply qa_chain_invoke_inr in Hinv as (w1 & Hret & Hgen).
  unfold questions in Hq. rewrite list_lookup_fmap in Hq.
  destruct (raw_questions !! i) as [raw|]; [|done].
  simpl in Hq. inversion Hq; subst q.
  exists raw, (world_after' r (take i questions') w),
    (source_documents resp), w1, wi. done.
Qed.

(** *** When the run returns, and what it can raise *)

Lemma datasets_loop_inr_built (rs : list Retriever) (ds0 : gmap string Data)
  (w : World) ds w' :
  datasets_loop' rs ds0 w = (inr ds, w') ->
  all_built' rs w = true
  /\ (rs = [] \/ length ground_truth = length raw_questions)
  /\ (forall r, r ∈ rs -> is_Some (ds !! knowledge_base_id r))
  /\ (forall k, is_Some (ds0 !! k) -> is_Some (ds !! k)).
Proof.
  revert ds0 w. induction rs as [|r rs IH]; intros ds0 w H.
  - inversion H; subst. split; [done|]. split; [by left|].
    split; [|done]. intros r Hr. by inversion Hr.
  - cbn [datasets_loop] in H.
    apply bind_inr_inv in H as ([k1 d1] & w1 & Hrag & H).
    apply bind_inr_inv in H as (d2 & w2 & Hfrom & H).
    apply execute_rag_inr in Hrag as (Hall & -> & -> & ->).
    simpl in *. unfold Dataset_from_dict in Hfrom.
    destruct (same_lengths _) eqn:Hsame; [|discriminate].
    inversion Hfrom; subst d2 w2; clear Hfrom.
    destruct (IH _ _ H) as (Hbuilt & _ & Hin & Hkeep).
    split; [by rewrite Hall, Hbuilt|]. split.
    + right. unfold same_lengths in Hsame. simpl in Hsame.
      apply andb_prop in Hsame as [_ Hsame].
      apply Nat.eqb_eq in Hsame. rewrite Hsame.
      unfold questions. apply length_map.
    + split.
      * intros r' Hr'. apply elem_of_cons in Hr' as [->|Hr']; [|by apply Hin].
        apply Hkeep. rewrite lookup_insert_eq. eauto.
      * intros k Hk. apply Hkeep.
        destruct (decide (knowledge_base_id r = k)) as [->|Hne].
        -- rewrite lookup_insert_eq. eauto.
        -- by rewrite lookup_insert_ne.
Qed.

Lemma datasets_loop_inl (rs : list Retriever) (ds0 : gmap string Data)
  (w : World) e w' :
  datasets_loop' rs ds0 w = (inl e, w') ->
  e = RetrievalError \/ e = GenerationError \/ e = ArrowInvalid.
Proof.
  revert ds0 w. induction rs as [|r rs IH]; intros ds0 w H; [discriminate|].
  cbn [datasets_loop] in H. unfold bind at 1 in H.
  destruct (all_answered' r questions' w) eqn:Hr.
  - rewrite (execute_rag_ok _ _ _ _ r w Hr) in H. simpl in H.
    unfold bind at 1, Dataset_from_dict in H.
    destruct (same_lengths _).
    + simpl in H. by eapply IH.
    + simpl in H. inversion H. auto.
  - destruct (execute_rag_raises _ _ raw_questions ground_truth r w Hr)
      as (e0 & w0 & Hrag & He).
    rewrite Hrag in H. inversion H; subst. tauto.
Qed.

Lemma dfs_loop_inl (datasets : gmap string Data) (i : nat)
  (ks : list KnowledgeBase) (dfs0 : PyDict.t DataFrame) (w : World) e w' :
  (forall kb, kb ∈ ks -> is_Some (datasets !! knowledgeBaseId kb)) ->
  dfs_loop' datasets i ks dfs0 w = (inl e, w') ->
  (e = IndexError /\ length bedrock_embeddings < i + length ks)
  \/ ((e = ValueError \/ e = RagasError)
      /\ all_scored' datasets i ks w = false).
Proof.
  revert i dfs0 w. induction ks as [|kb ks IH]; intros i dfs0 w Hin H;
    [discriminate|].
  destruct (bedrock_embeddings !! i) as [emb|] eqn:He.
  - destruct (Hin kb ltac:(by left)) as [ds Hds].
    cbn [all_scored]. rewrite He, Hds.
    destruct (evaluate_returns ragas_raises ds metrics emb w) eqn:Hr.
    + rewrite (dfs_loop_step _ _ _ _ _ datasets i kb ks dfs0 w emb ds
                 He Hds Hr) in H.
      destruct (IH _ _ _ ltac:(intros kb' Hkb'; apply Hin; by right) H)
        as [[-> Hlen]|[He' Hs]].
      * left. split; [done|]. simpl. lia.
      * right. split; [exact He'|exact Hs].
    + destruct (dfs_loop_step_raises ragas_score ragas_effect ragas_raises
                  bedrock_embeddings metrics datasets i kb ks dfs0 w emb ds
                  He Hds Hr) as (e0 & w0 & Hk & He0).
      rewrite Hk in H. inversion H; subst e0 w0.
      right. split; [exact He0|done].
  - rewrite (dfs_loop_step_index_error ragas_score ragas_effect ragas_raises
               bedrock_embeddings metrics datasets i kb ks dfs0 w He) in H.
    inversion H; subst. left. split; [done|].
    apply lookup_ge_None in He. simpl. lia.
Qed.

(** X12. The run returns a table exactly when every record is built, the
    ground truths are as many as the questions (or there is no knowledge
    base at all), [bedrock_embeddings] has an entry for every knowledge
    base, and every call of [evaluate] returns. *)
Theorem run_returns_iff (w : World) :
  (exists table w', run' w = (inr table, w'))
  <-> all_built' (retrievers kbs) w = true
      /\ (kbs = [] \/ length ground_truth = length raw_questions)
      /\ length kbs <= length bedrock_embeddings
      /\ run_scored' w = true.
Proof.
  split.
  - intros (table & w' & Hrun).
    destruct (run_evaluation_inr w table w' Hrun)
      as (ds & w1 & Hloop & Hlen & _ & _).
    destruct (datasets_loop_inr_built _ _ _ _ _ Hloop)
      as (Hbuilt & Hpaired & _ & _).
    split; [done|]. split; [|split].
    + destruct Hpaired as [Hnil|Hp]; [left|by right].
      unfold retrievers in Hnil. by destruct kbs.
    + destruct (calls_embeddings _ _ _ _ _ _ _ _ Hlen) as [->|Hle];
        [simpl; lia|exact Hle].
    + destruct (datasets_loop_inr_eq _ _ _ _ _ _ _ _ _ Hloop) as [-> ->].
      exact (calls_scored _ _ _ _ _ _ _ _ Hlen).
  - intros (Hbuilt & Hpaired & Hemb & Hs).
    destruct Hpaired as [Hnil|paired].
    + exists [], w. unfold run_evaluation, retrievers. by rewrite Hnil.
    + destruct (datasets_loop_ok _ _ _ _ paired (retrievers kbs) ∅ w Hbuilt)
        as (ds & Hloop & Hin & _).
      destruct (datasets_loop_inr_eq _ _ _ _ _ _ _ _ _ Hloop) as [-> _].
      destruct (dfs_loop_cases ragas_score ragas_effect ragas_raises
                  bedrock_embeddings metrics
                  (built_datasets retrieve generate raw_questions ground_truth
                     (retrievers kbs) ∅ w)
                  0 kbs [] (world_built' (retrievers kbs) w))
        as [[_ [w' Hdfs]]|[Hlt _]].
      * eexists _, w'. unfold run_evaluation, bind. rewrite Hloop.
        exact Hdfs.
      * exfalso.
        rewrite (calls_complete ragas_effect ragas_raises bedrock_embeddings
                   metrics) in Hlt; [lia| |lia|exact Hs].
        intros kb Hkb. apply (Hin (retriever_of kb)).
        unfold retrievers. apply list_elem_of_fmap. by exists kb.
Qed.

(** X13. What the run can raise: the error of a retriever or of the
    generator, [ArrowInvalid] for lists of different lengths, [IndexError]
    for a missing embeddings entry, or what a call of [evaluate] raises once
    every record is built: [ValueError] from its check of the column types,
    or the exception it lets through. The lookup [datasets[kb_id]] never
    raises [KeyError], because the retrievers and the scoring loop go
    through the same [kbs]. *)
Theorem run_raises_only (w : World) e w' :
  run' w = (inl e, w') ->
  e = RetrievalError \/ e = GenerationError \/ e = ArrowInvalid
  \/ (e = IndexError /\ length bedrock_embeddings < length kbs)
  \/ ((e = ValueError \/ e = RagasError)
      /\ all_built' (retrievers kbs) w = true
      /\ run_scored' w = false).
Proof.
  intros Hrun. unfold run_evaluation, bind in Hrun.
  destruct (datasets_loop' (retrievers kbs) ∅ w) as [[e0|ds] w1] eqn:Hloop.
  - inversion Hrun; subst.
    destruct (datasets_loop_inl _ _ _ _ _ Hloop) as [?|[?|?]]; auto.
  - destruct (datasets_loop_inr_built _ _ _ _ _ Hloop)
      as (Hbuilt & _ & Hin & _).
    destruct (datasets_loop_inr_eq _ _ _ _ _ _ _ _ _ Hloop) as [-> ->].
    destruct (dfs_loop_inl _ 0 kbs [] _ e w'
                ltac:(intros kb Hkb; apply (Hin (retriever_of kb));
                      unfold retrievers; apply list_elem_of_fmap;
                      by exists kb) Hrun) as [[-> Hlen]|[He Hs]].
    + right. right. right. left. split; [done|]. simpl in Hlen. lia.
    + right. right. right. right. done.
Qed.

End FurtherFacts.

(** ** Labels and bars of the comparison view *)

(** X9. A row of the summary whose key is the id of no knowledge base in
    [kbs] is looked up as 'Unknown', which [display_names] does not know, so
    its label is NaN; with distinct ids, the row of a registered knowledge
    base carries the display name of its name, or NaN when [display_names]
    has none for it. *)
Theorem summary_labels (kbs : list KnowledgeBase)
  (table : PyDict.t DataFrame) (mf : MeansFrame) (b : nat) (key : string)
  (df : DataFrame) :
  summarize kbs table = inr mf ->
  PyDict.items table !! b = Some (key, df) ->
  (key ∉ map knowledgeBaseId kbs -> index mf !! b = Some None)
  /\ (forall kb,
        NoDup (map knowledgeBaseId kbs) -> kb ∈ kbs ->
        knowledgeBaseId kb = key ->
        index mf !! b = Some (display_names !! kb_name kb)).
Proof.
  intros Hsum Hb.
  destruct (summarize_index kbs table mf Hsum) as (Hidx & _ & _).
  assert (Hlabel : index mf !! b
                   = Some (display_names !! kb_name_of kbs key)).
  { rewrite Hidx. unfold PyDict.keys. rewrite !list_lookup_fmap.
    unfold PyDict.items in Hb. by rewrite Hb. }
  split.
  - intros Hkey. rewrite Hlabel, (kb_name_of_unknown kbs key Hkey).
    reflexivity.
  - intros kb Hnd Hkb <-. by rewrite Hlabel, kb_name_of_registered.
Qed.

(** X10. Each bar of the comparison view is the mean of its column: for the
    backend at position [b] of the table and the metric at position [j] of
    [numeric_cols], the [b]-th bar of the [j]-th metric of [plot_df1] is the
    pandas mean of that metric's column in that backend's frame. *)
Theorem bars_are_column_means (kbs : list KnowledgeBase)
  (table : PyDict.t DataFrame) (b j : nat) (key c : string)
  (df : DataFrame) (l : list (option Qc)) :
  scored_table table = true ->
  PyDict.items table !! b = Some (key, df) ->
  numeric_cols !! j = Some c ->
  column c df = Some (NumCol l) ->
  exists mf bars label,
    summarize kbs table = inr mf
    /\ plot_df1 mf !! j = Some (c, bars)
    /\ bars !! b = Some (label, nanmean l).
Proof.
  intros Hscored Hb Hj Hcol.
  destruct (summarize_returns kbs table Hscored) as [mf Hsum].
  destruct (summarize_entry kbs table mf b key df j c Hsum Hb Hj)
    as (l' & Hcol' & Hentry).
  rewrite Hcol in Hcol'. inversion Hcol'; subst l'; clear Hcol'.
  destruct (summarize_index kbs table mf Hsum) as (Hidx & Hcols & Hvals).
  assert (Hlt : j < 6).
  { apply lookup_lt_Some in Hj. exact Hj. }
  unfold summary_entry in Hentry.
  destruct (values mf !! b) as [row|] eqn:Hrow; [|done].
  simpl in Hentry.
  assert (Hlabel : is_Some (index mf !! b)).
  { apply lookup_lt_is_Some_2. rewrite Hidx. unfold PyDict.keys.
    rewrite !length_map. apply lookup_lt_Some in Hb. exact Hb. }
  destruct Hlabel as [label Hlabel].
  exists mf, (zip_with (fun lbl row0 => (lbl, default None (row0 !! j)))
                (index mf) (map (take 6) (values mf))), label.
  split; [exact Hsum|]. split.
  - unfold plot_df1, transpose. rewrite list_lookup_imap. simpl.
    rewrite Hcols. change (take 6 numeric_cols) with numeric_cols.
    by rewrite Hj.
  - rewrite lookup_zip_with, Hlabel, list_lookup_fmap, Hrow. simpl.
    by rewrite lookup_take_lt, Hentry.
Qed.

(** ** Trying one question *)

Section TryQueryFacts.
Context {World : Type}.
Variable retrieve : Retriever -> string -> World -> option (list Document) * World.
Variable generate : list Document -> string -> World -> option string * World.

Local Abbreviation invoke := (qa_chain_invoke retrieve generate).
Local Abbreviation world_tried' := (world_tried retrieve generate).

(** X11. The cell that tries one question invokes the chain through the
    retrievers in order, each in the world left by the one before, and
    stops at the first whose chain raises. The output is what was printed
    before, followed by the two prints of each retriever before that one,
    made from the response that the chain returned for it; nothing is
    printed for the one that raised or for those after it, and the error
    and the world are the ones its chain left. Without an error every
    retriever has its two prints. *)
Theorem try_query_outcome (rs : list Retriever) (query : string)
  (printed : list string) (w : World) res out w' :
  try_query retrieve generate rs query printed w = (res, out, w') ->
  exists answers : list Response,
    length answers <= length rs
    /\ (forall i r,
          rs !! i = Some r -> i < length answers ->
          exists response,
            answers !! i = Some response
            /\ invoke r query (world_tried' (take i rs) query w)
               = (inr response, world_tried' (take (S i) rs) query w))
    /\ out = printed ++ concat (zip_with printed_for rs answers)
    /\ (res = None ->
        length answers = length rs /\ w' = world_tried' rs query w)
    /\ (forall e, res = Some e ->
          (e = RetrievalError \/ e = GenerationError)
          /\ exists r,
               rs !! length answers = Some r
               /\ invoke r query
                    (world_tried' (take (length answers) rs) query w)
                  = (inl e, w')).
Proof.
  revert printed w. induction rs as [|r rs IH]; intros printed w H.
  - inversion H; subst. exists []. simpl. rewrite app_nil_r.
    split; [lia|]. split; [intros i r Hi; by inversion Hi|].
    split; [done|]. split; [done | discriminate].
  - cbn [try_query] in H.
    destruct (invoke r query w) as [[e|response] w1] eqn:Hinv.
    + inversion H; subst. exists []. simpl. rewrite app_nil_r.
      split; [lia|]. split; [intros i r0 _ Hi; lia|].
      split; [done|]. split; [discriminate|].
      intros e' E. inversion E; subst e'.
      split; [by eapply qa_chain_invoke_exn|].
      exists r. split; [done|exact Hinv].
    + destruct (IH _ _ H) as (answers & Hlen & Hans & -> & Hnone & Hsome).
      exists (response :: answers). simpl. split; [lia|]. split; [|split].
      * intros i r0 Hi Hlt. destruct i as [|i]; simpl in Hi.
        -- inversion Hi; subst r0. exists response. split; [done|].
           simpl. by rewrite Hinv.
        -- destruct (Hans i r0 Hi ltac:(lia)) as (resp & Hresp & Hcall).
           exists resp. split; [done|].
           cbn [take world_tried]. rewrite Hinv. exact Hcall.
      * by rewrite <- !app_assoc.
      * split.
        -- intros E. destruct (Hnone E) as [-> ->].
           split; [done|]. by rewrite Hinv.
        -- intros e E. destruct (Hsome e E) as (He & r0 & Hr0 & Hcall).
           split; [exact He|]. exists r0. split; [exact Hr0|].
           rewrite Hinv. exact Hcall.
Qed.

End TryQueryFacts.

(** ** The further properties on the notebook's inputs and the sample ports *)

Lemma run_too_few_embeddings_witness :
  exists w',
    run_evaluation Sample.retrieve_two Sample.generate_ok Sample.score_45
      Sample.effect_tick Sample.no_raise Sample.raw_questions Sample.ground_truth Sample.kbs
      [{| model_id := "amazon.titan-embed-text-v2:0" |}] Sample.metrics 0
    = (inl IndexError, w').
Proof.
  apply (run_too_few_embeddings Sample.retrieve_two Sample.generate_ok
           Sample.score_45 Sample.effect_tick Sample.no_raise Sample.raw_questions
           Sample.ground_truth Sample.kbs
           [{| model_id := "amazon.titan-embed-text-v2:0" |}]
           Sample.metrics 0 eq_refl eq_refl eq_refl).
  simpl. lia.
Defined.

Lemma run_mismatched_ground_truth_witness :
  run_evaluation Sample.retrieve_two Sample.generate_ok Sample.score_45
    Sample.effect_tick Sample.no_raise Sample.raw_questions (take 2 Sample.ground_truth)
    Sample.kbs Sample.bedrock_embeddings Sample.metrics 0
  = (inl ArrowInvalid, 6).
Proof.
  refine (proj2 (run_mismatched_ground_truth Sample.retrieve_two
                   Sample.generate_ok Sample.score_45 Sample.effect_tick Sample.no_raise
                   Sample.raw_questions (take 2 Sample.ground_truth)
                   Sample.kbs Sample.bedrock_embeddings Sample.metrics
                   Sample.amazon_titan_knowledge_base
                   [Sample.cohere_embed_knowledge_base] 0 eq_refl _ eq_refl)).
  simpl. lia.
Defined.

Lemma each_kb_scored_on_own_answers_witness :
  exists emb data w0,
    Sample.bedrock_embeddings !! 1 = Some emb
    /\ PyDict.get "KBCOHERE01" (Sample.table_of Sample.score_45)
       = Some (ragas_frame Sample.score_45 data Sample.metrics emb w0).
Proof.
  destruct (each_kb_scored_on_own_answers Sample.retrieve_two
              Sample.generate_ok Sample.score_45 Sample.effect_tick Sample.no_raise
              Sample.raw_questions Sample.ground_truth Sample.kbs
              Sample.bedrock_embeddings Sample.metrics 0
              (Sample.table_of Sample.score_45) 14)
    with (i := 1) (kb := Sample.cohere_embed_knowledge_base)
    as (emb & data & w0 & H1 & _ & H3).
  - apply (bool_decide_unpack _). by vm_compute.
  - reflexivity.
  - reflexivity.
  - exists emb, data, w0. split; [exact H1 | exact H3].
Defined.

Lemma run_table_keyed_by_id_witness :
  let r := run_evaluation Sample.retrieve_two Sample.generate_ok
             Sample.score_45 Sample.effect_tick Sample.no_raise Sample.raw_questions
             Sample.ground_truth Sample.kbs_shared_id
             Sample.bedrock_embeddings Sample.metrics 0 in
  r = (inr (Sample.table_from r), 14)
  /\ NoDup (PyDict.keys (Sample.table_from r))
  /\ length (Sample.table_from r) <= 2.
Proof.
  intros r. split; [reflexivity|].
  destruct (run_table_keyed_by_id Sample.retrieve_two Sample.generate_ok
              Sample.score_45 Sample.effect_tick Sample.no_raise Sample.raw_questions
              Sample.ground_truth Sample.kbs_shared_id
              Sample.bedrock_embeddings Sample.metrics 0
              (Sample.table_from r) 14 eq_refl) as (H1 & _ & H3 & _).
  split; [exact H1 | exact H3].
Defined.

Lemma summarize_needs_every_metric_witness :
  let r := run_evaluation Sample.retrieve_two Sample.generate_ok
             Sample.score_45 Sample.effect_tick Sample.no_raise Sample.raw_questions
             Sample.ground_truth Sample.kbs Sample.bedrock_embeddings
             Sample.metrics_without_similarity 0 in
  r = (inr (Sample.table_from r), 14)
  /\ exists k, summarize Sample.kbs (Sample.table_from r) = inl (KeyError k).
Proof.
  intros r. split; [reflexivity|].
  destruct (summarize_needs_every_metric Sample.retrieve_two
              Sample.generate_ok Sample.score_45 Sample.effect_tick Sample.no_raise
              Sample.raw_questions Sample.ground_truth Sample.kbs
              Sample.bedrock_embeddings Sample.metrics_without_similarity 0
              (Sample.table_from r) 14 eq_refl) as (k & Hk & _).
  - discriminate.
  - reflexivity.
  - by exists k.
Defined.

Lemma no_questions_raises_witness :
  run_evaluation Sample.retrieve_down Sample.generate_ok Sample.score_45
    Sample.effect_tick Sample.no_raise [] [] Sample.kbs
    Sample.bedrock_embeddings Sample.metrics 0 = (inl ValueError, 0).
Proof.
  destruct (no_questions_raises Sample.retrieve_down Sample.generate_ok
              Sample.score_45 Sample.effect_tick Sample.no_raise [] []
              Sample.kbs Sample.bedrock_embeddings Sample.metrics 0
              eq_refl eq_refl) as (_ & _ & _ & H).
  apply H; discriminate.
Defined.

Lemma run_without_chunks_witness :
  run_evaluation Sample.retrieve_nothing Sample.generate_ok Sample.score_45
    Sample.effect_tick Sample.no_raise Sample.raw_questions
    Sample.ground_truth Sample.kbs Sample.bedrock_embeddings Sample.metrics 0
  = (inl ValueError, 12).
Proof.
  apply (run_without_chunks Sample.retrieve_nothing Sample.generate_ok
           Sample.score_45 Sample.effect_tick Sample.no_raise
           Sample.raw_questions Sample.ground_truth Sample.kbs
           Sample.bedrock_embeddings Sample.metrics 0 eq_refl).
  - intros r q w0 docs w1 E. by inversion E.
  - discriminate.
  - discriminate.
  - reflexivity.
Defined.

Lemma retrieval_sees_prefixed_question_witness :
  exists raw w0 docs w1 w2,
    Sample.raw_questions !! 1 = Some raw
    /\ Sample.retrieve_two
         {| knowledge_base_id := "KBTITAN001"; numberOfResults := 5 |}
         (prefix +:+ raw) w0 = (Some docs, w1)
    /\ Sample.generate_ok docs (prefix +:+ raw) w1
       = (Some "An increase in net income.", w2).
Proof.
  destruct (retrieval_sees_prefixed_question Sample.retrieve_two
              Sample.generate_ok Sample.raw_questions Sample.ground_truth
              {| knowledge_base_id := "KBTITAN001"; numberOfResults := 5 |}
              0 _ _ _ eq_refl 1 "An increase in net income."
              ["Net cash provided by operating activities";
               "Net cash used in investing activities"] eq_refl eq_refl)
    as (raw & w0 & docs & w1 & w2 & H1 & H2 & H3 & _).
  exists raw, w0, docs, w1, w2. split; [exact H1|]. split; [exact H2|exact H3].
Defined.

Lemma summary_labels_witness :
  exists mf,
    summarize [Sample.cohere_embed_knowledge_base]
      (Sample.table_of Sample.score_45) = inr mf
    /\ index mf !! 0 = Some None.
Proof.
  eexists. split; [reflexivity|].
  refine (proj1 (summary_labels [Sample.cohere_embed_knowledge_base]
                   (Sample.table_of Sample.score_45) _ 0 "KBTITAN001" _
                   eq_refl eq_refl) _).
  intros Hin. apply list_elem_of_singleton in Hin. discriminate.
Defined.

Lemma bars_are_column_means_witness :
  exists mf bars label,
    summarize Sample.kbs (Sample.table_of Sample.score_one_error) = inr mf
    /\ plot_df1 mf !! 0 = Some ("answer_relevancy", bars)
    /\ bars !! 0
       = Some (label, nanmean [Some (Q2Qc (4 # 5)); Some (Q2Qc (4 # 5)); None]).
Proof.
  refine (bars_are_column_means Sample.kbs
            (Sample.table_of Sample.score_one_error) 0 0 "KBTITAN001"
            "answer_relevancy" _
            [Some (Q2Qc (4 # 5)); Some (Q2Qc (4 # 5)); None]
            eq_refl eq_refl eq_refl eq_refl).
Defined.

Lemma try_query_outcome_witness :
  exists answers : list Response,
    ["KB: KBTITAN001 " +:+ LF; "An increase in net income." +:+ LF +:+ LF]
    = [] ++ concat (zip_with printed_for (retrievers Sample.kbs) answers)
    /\ exists r,
         retrievers Sample.kbs !! length answers = Some r
         /\ qa_chain_invoke Sample.retrieve_cohere_down Sample.generate_ok r
              "What was the primary reason for the increase in net cash provided by operating activities for Octank Financial in 2021?"
              (world_tried Sample.retrieve_cohere_down Sample.generate_ok
                 (take (length answers) (retrievers Sample.kbs))
                 "What was the primary reason for the increase in net cash provided by operating activities for Octank Financial in 2021?"
                 0)
            = (inl RetrievalError, 3).
Proof.
  destruct (try_query_outcome Sample.retrieve_cohere_down Sample.generate_ok
              (retrievers Sample.kbs)
              "What was the primary reason for the increase in net cash provided by operating activities for Octank Financial in 2021?"
              [] 0 (Some RetrievalError)
              ["KB: KBTITAN001 " +:+ LF;
               "An increase in net income." +:+ LF +:+ LF] 3 eq_refl)
    as (answers & _ & _ & Hout & _ & Hsome).
  exists answers. split; [exact Hout|].
  exact (proj2 (Hsome RetrievalError eq_refl)).
Defined.

Lemma run_raises_only_witness :
  ValueError = RetrievalError \/ ValueError = GenerationError
  \/ ValueError = ArrowInvalid
  \/ (ValueError = IndexError
      /\ length Sample.bedrock_embeddings < length Sample.kbs)
  \/ ((ValueError = ValueError \/ ValueError = RagasError)
      /\ all_built Sample.retrieve_nothing Sample.generate_ok
           Sample.raw_questions (retrievers Sample.kbs) 0 = true
      /\ run_scored Sample.retrieve_nothing Sample.generate_ok
           Sample.effect_tick Sample.no_raise Sample.raw_questions
           Sample.ground_truth Sample.kbs Sample.bedrock_embeddings
           Sample.metrics 0 = false).
Proof.
  apply (run_raises_only Sample.retrieve_nothing Sample.generate_ok
           Sample.score_45 Sample.effect_tick Sample.no_raise
           Sample.raw_questions Sample.ground_truth Sample.kbs
           Sample.bedrock_embeddings Sample.metrics 0 ValueError 12 eq_refl).
Defined.
